(** * TamingTrees: the shared-world state engine of the server

    A shallow embedding of the helpers and request handlers of the game
    server, in its revision with the grid allocator, and the properties of
    the design document that are about them. The earlier revision
    ([src/server/index.ts]) has the same growth, achievement, proximity and
    chat helpers and the same plant, water, harvest, buy-seeds, buy-land and
    move handlers; it differs in how starting land is found.

    Conventions of the embedding.
    - [Date.now()] is an explicit argument [now : Z] (milliseconds).
    - Generated ids ([generateLandPlotId], [generateTreeId], ...) and
      [Math.random()] draws are explicit arguments.
    - JavaScript numbers that the server only ever produces as integers
      (timestamps, coins, seeds, experience, levels, grid indices) are [Z];
      coordinates, which arrive in request bodies, are exact rationals [Q].
      Products with the literal [1.5] and quotients are taken in [Q] and
      rounded with [Qfloor], as [Math.floor] does on the exact value.
    - The key-value store is three finite maps (players, biomes, game
      states) keyed by the strings the server builds its redis keys from;
      [JSON.stringify]/[JSON.parse] is value copying.
    - The module-level [claimedPlots : Set<string>] and [chatMessages]
      array are fields of the explicit world state. *)

From Stdlib Require Import ZArith QArith Qround Qabs Qminmax Reals Qreals Lia Lra List Ascii.
From stdpp Require Import base strings pretty gmap list.

Open Scope Z_scope.

(** ** Configuration constants *)

Definition WORLD_WIDTH : Z := 2000.
Definition WORLD_HEIGHT : Z := 4000.
Definition PLOT_WIDTH : Z := 10.
Definition PLOT_HEIGHT : Z := 20.
Definition MAX_PLAYERS : Z := 200.

Definition GRID_WIDTH : Z := WORLD_WIDTH / PLOT_WIDTH.
Definition GRID_HEIGHT : Z := WORLD_HEIGHT / PLOT_HEIGHT.

Definition GROWTH_TIME : Z := 30000.
Definition MAX_TREES_PER_PLOT : Z := 5.
Definition SEED_COST : Z := 10.
Definition LAND_PLOT_COST : Z := 100.

(** ** Data model ([src/shared/types/api.ts])

    Each record lives in a module of its own so that fields keep the names
    they have in the source ([Player.coins], [Tree.plantedAt], ...).
    Cosmetic fields that no handler reads or writes (avatar, icon, premium
    flags, environment colours) are left out. *)

Inductive TreeType := oak | pine | cherry | maple | cedar.

Inductive BiomeType := forest | meadow | hills | lake | mountain.

Inductive AchievementCategory :=
  planting | harvesting | exploration | social | economy | mastery.

Record Position := mkPosition { pos_x : Q; pos_y : Q; pos_z : Q }.

Module Tree.
Record t := mk {
  id : string;
  type : TreeType;
  x : Q;
  y : Q;
  z : Q;
  growthStage : Z;
  plantedAt : Z;
  lastWatered : Z;
  health : Z;
  ownerId : string
}.
End Tree.

Module Achievement.
Record t := mk {
  id : string;
  name : string;
  description : string;
  unlockedAt : Z;
  category : AchievementCategory
}.
(** [{ ...a, unlockedAt: now }] *)
Definition with_unlockedAt (a : t) (now : Z) : t :=
  mk (id a) (name a) (description a) now (category a).
End Achievement.

Module Player.
Record t := mk {
  id : string;
  username : string;
  level : Z;
  experience : Z;
  coins : Z;
  achievements : list Achievement.t;
  landPlots : list string;
  position : Position;
  lastActive : Z
}.
Definition with_experience (p : t) (v : Z) : t :=
  mk (id p) (username p) (level p) v (coins p) (achievements p)
     (landPlots p) (position p) (lastActive p).
Definition with_coins (p : t) (v : Z) : t :=
  mk (id p) (username p) (level p) (experience p) v (achievements p)
     (landPlots p) (position p) (lastActive p).
Definition with_achievements (p : t) (v : list Achievement.t) : t :=
  mk (id p) (username p) (level p) (experience p) (coins p) v
     (landPlots p) (position p) (lastActive p).
Definition with_landPlots (p : t) (v : list string) : t :=
  mk (id p) (username p) (level p) (experience p) (coins p) (achievements p)
     v (position p) (lastActive p).
Definition with_position (p : t) (v : Position) : t :=
  mk (id p) (username p) (level p) (experience p) (coins p) (achievements p)
     (landPlots p) v (lastActive p).
Definition with_lastActive (p : t) (v : Z) : t :=
  mk (id p) (username p) (level p) (experience p) (coins p) (achievements p)
     (landPlots p) (position p) v.
End Player.

Module LandPlot.
Record t := mk {
  id : string;
  x : Q;
  z : Q;
  ownerId : string;
  biomeType : BiomeType;
  trees : list string;
  purchasedAt : Z;
  price : Z
}.
Definition with_trees (l : t) (v : list string) : t :=
  mk (id l) (x l) (z l) (ownerId l) (biomeType l) v (purchasedAt l) (price l).
End LandPlot.

Module Biome.
Record t := mk {
  id : string;
  name : string;
  type : BiomeType;
  maxPlayers : Z;
  landPlots : list LandPlot.t;
  players : list Player.t
}.
Definition with_landPlots (b : t) (v : list LandPlot.t) : t :=
  mk (id b) (name b) (type b) (maxPlayers b) v (players b).
Definition with_players (b : t) (v : list Player.t) : t :=
  mk (id b) (name b) (type b) (maxPlayers b) (landPlots b) v.
End Biome.

Module Resources.
Record t := mk { seeds : Z; water : Z; fertilizer : Z; coins : Z }.
End Resources.

Module GameState.
Record t := mk {
  player : Player.t;
  currentBiome : Biome.t;
  trees : list Tree.t;
  resources : Resources.t;
  lastPlayed : Z
}.
End GameState.

Inductive ChatKind := chat_player | chat_system.

Module ChatMessage.
Record t := mk {
  id : string;
  playerId : string;
  username : string;
  message : string;
  timestamp : Z;
  type : ChatKind
}.
End ChatMessage.

(** ** Growth engine *)

Module Growth.

(** [calculateTreeGrowth(tree)], with [Date.now()] as [now]. *)
Definition calculateTreeGrowth (tree : Tree.t) (now : Z) : Z :=
  let timeSincePlanted := now - Tree.plantedAt tree in
  let timeSinceWatered := now - Tree.lastWatered tree in
  let waterBonus : Q := if timeSinceWatered <? 60000 then 1.5%Q else 1%Q in
  let growthStages :=
    Qfloor ((inject_Z timeSincePlanted * waterBonus) / inject_Z GROWTH_TIME) in
  Z.min growthStages 5.

(** The growth stage as the design document words it:
    [min(maxStage, floor((now - plantedAt) * waterBonus / growthPeriod))]
    with [waterBonus = 1.5] if [now - lastWatered < wateredWindow] and
    [1.0] otherwise. *)
Definition maxStage : Z := 5.
Definition growthPeriod : Q := 30000%Q.
Definition wateredWindow : Z := 60000.

Definition waterBonus_spec (tree : Tree.t) (now : Z) : Q :=
  if decide (now - Tree.lastWatered tree < wateredWindow) then 1.5%Q else 1.0%Q.

Definition growthStage_spec (tree : Tree.t) (now : Z) : Z :=
  Z.min maxStage
    (Qfloor (inject_Z (now - Tree.plantedAt tree) * waterBonus_spec tree now
             / growthPeriod)).

(** A tree as the plant handler stores it: stage 0, full health. *)
Definition sapling (planted watered : Z) : Tree.t :=
  Tree.mk "tree_0" oak 0%Q 0%Q 0%Q 0 planted watered 100 "alice".

End Growth.

(** ** Chat ring buffer *)

Module Chat.

(** [Array.prototype.slice(start)] for an integer [start]: a negative
    start counts from the end and is clamped at the front, a non-negative
    one is clamped at the length. *)
Definition slice_from {A : Type} (start : Z) (l : list A) : list A :=
  let len := Z.of_nat (length l) in
  let k := if start <? 0 then Z.max (len + start) 0 else Z.min start len in
  drop (Z.to_nat k) l.

(** [addChatMessage]: the new buffer and the message that was built. *)
Definition addChatMessage (chatMessages : list ChatMessage.t)
    (freshId playerId username message : string) (now : Z) (type : ChatKind)
  : list ChatMessage.t * ChatMessage.t :=
  let chatMessage := ChatMessage.mk freshId playerId username message now type in
  let chatMessages := chatMessages ++ [chatMessage] in
  let chatMessages :=
    if 100 <? Z.of_nat (length chatMessages)
    then slice_from (-100) chatMessages
    else chatMessages in
  (chatMessages, chatMessage).

(** [getRecentChatMessages(limit)] is [chatMessages.slice(-limit)]. *)
Definition getRecentChatMessages (chatMessages : list ChatMessage.t) (limit : Z)
  : list ChatMessage.t :=
  slice_from (- limit) chatMessages.

(** The last [n] elements of a list, oldest first. *)
Definition last_n {A : Type} (n : nat) (l : list A) : list A :=
  drop (length l - n)%nat l.

Definition note (i : Z) : ChatMessage.t :=
  ChatMessage.mk ("chat_" +:+ pretty i) "alice" "alice" "hello" i chat_player.

End Chat.

(** ** Plot allocator *)

Module Plots.

(** The template literal [`${gridX},${gridZ}`]. *)
Definition plotKey (gridX gridZ : Z) : string :=
  pretty gridX +:+ "," +:+ pretty gridZ.

(** Inner loop of [findAvailablePlot]: [n] iterations left, at [gridZ]. *)
Fixpoint scanZ (claimedPlots : gset string) (gridX : Z) (n : nat) (gridZ : Z)
  : option (Z * Z) :=
  match n with
  | O => None
  | S n' =>
      if bool_decide (plotKey gridX gridZ ∈ claimedPlots)
      then scanZ claimedPlots gridX n' (gridZ + 1)
      else Some (gridX, gridZ)
  end.

(** Outer loop of [findAvailablePlot]: [n] iterations left, at [gridX]. *)
Fixpoint scanX (claimedPlots : gset string) (n : nat) (gridX : Z)
  : option (Z * Z) :=
  match n with
  | O => None
  | S n' =>
      match scanZ claimedPlots gridX (Z.to_nat GRID_HEIGHT) 0 with
      | Some cell => Some cell
      | None => scanX claimedPlots n' (gridX + 1)
      end
  end.

Definition findAvailablePlot (claimedPlots : gset string) : option (Z * Z) :=
  scanX claimedPlots (Z.to_nat GRID_WIDTH) 0.

(** [claimPlot]: the boolean it returns and the set afterwards. *)
Definition claimPlot (claimedPlots : gset string) (gridX gridZ : Z)
  : bool * gset string :=
  let plotKey := plotKey gridX gridZ in
  if bool_decide (plotKey ∈ claimedPlots) then (false, claimedPlots)
  else if MAX_PLAYERS <=? Z.of_nat (size claimedPlots) then (false, claimedPlots)
  else (true, claimedPlots ∪ {[plotKey]}).

Record PlotCoords := mkCoords {
  startX : Q; startZ : Q; endX : Q; endZ : Q; centerX : Q; centerZ : Q
}.

Definition getPlotWorldCoordinates (gridX gridZ : Z) : PlotCoords :=
  let startX := (inject_Z gridX * inject_Z PLOT_WIDTH - inject_Z WORLD_WIDTH / 2)%Q in
  let startZ := (inject_Z gridZ * inject_Z PLOT_HEIGHT - inject_Z WORLD_HEIGHT / 2)%Q in
  let endX := (startX + inject_Z PLOT_WIDTH)%Q in
  let endZ := (startZ + inject_Z PLOT_HEIGHT)%Q in
  let centerX := (startX + inject_Z PLOT_WIDTH / 2)%Q in
  let centerZ := (startZ + inject_Z PLOT_HEIGHT / 2)%Q in
  mkCoords startX startZ endX endZ centerX centerZ.

(** The cell is inside the grid. *)
Definition in_grid (gridX gridZ : Z) : Prop :=
  0 <= gridX < GRID_WIDTH /\ 0 <= gridZ < GRID_HEIGHT.

(** Scan order of the two nested loops: [gridX] outermost. *)
Definition scanned_before (c d : Z * Z) : Prop :=
  fst c < fst d \/ (fst c = fst d /\ snd c < snd d).

(** The grid cell whose footprint contains a point of the world: the
    inverse of [getPlotWorldCoordinates] on cell interiors. *)
Definition cellOf (x z : Q) : Z * Z :=
  (Qfloor ((x + inject_Z WORLD_WIDTH / 2) / inject_Z PLOT_WIDTH),
   Qfloor ((z + inject_Z WORLD_HEIGHT / 2) / inject_Z PLOT_HEIGHT)).

(** The first column of the grid, all [GRID_HEIGHT] cells of it. *)
Definition first_column : gset string :=
  list_to_set (map (fun z => plotKey 0 (Z.of_nat z)) (seq 0 (Z.to_nat GRID_HEIGHT))).

End Plots.

(** ** Achievement evaluator *)

Module Achievements.

Definition first_tree : Achievement.t :=
  Achievement.mk "first_tree" "First Steps" "Plant your first tree" 0 planting.
Definition tree_master : Achievement.t :=
  Achievement.mk "tree_master" "Tree Master" "Plant 50 trees" 0 planting.
Definition harvester : Achievement.t :=
  Achievement.mk "harvester" "Harvester" "Harvest 25 trees" 0 harvesting.
Definition landowner : Achievement.t :=
  Achievement.mk "landowner" "Landowner" "Own 5 land plots" 0 economy.
Definition explorer : Achievement.t :=
  Achievement.mk "explorer" "Explorer" "Visit all biome types" 0 exploration.
Definition social_butterfly : Achievement.t :=
  Achievement.mk "social_butterfly" "Social Butterfly" "Meet 10 other players" 0 social.
Definition millionaire : Achievement.t :=
  Achievement.mk "millionaire" "Millionaire" "Accumulate 10,000 coins" 0 economy.
Definition master_gardener : Achievement.t :=
  Achievement.mk "master_gardener" "Master Gardener" "Reach level 25" 0 mastery.

(** [player.achievements.find(a => a.id === key)] as a truth value. *)
Definition holds (player : Player.t) (key : string) : bool :=
  existsb (fun a => String.eqb (Achievement.id a) key) (Player.achievements player).

(** [count && count >= n] for the optional argument [count?: number]. *)
Definition count_at_least (count : option Z) (n : Z) : bool :=
  match count with
  | Some c => negb (c =? 0) && (n <=? c)
  | None => false
  end.

(** One [if (...) newAchievements.push({...a, unlockedAt: now})]. *)
Definition unlock_if (cond : bool) (a : Achievement.t) (now : Z)
  : list Achievement.t :=
  if cond then [Achievement.with_unlockedAt a now] else [].

Definition checkAchievements (player : Player.t) (action : string)
    (count : option Z) (now : Z) : list Achievement.t :=
  unlock_if (String.eqb action "plant_tree" && negb (holds player "first_tree"))
            first_tree now
  ++ unlock_if (String.eqb action "plant_tree" && count_at_least count 50
                && negb (holds player "tree_master"))
               tree_master now
  ++ unlock_if (String.eqb action "harvest_tree" && count_at_least count 25
                && negb (holds player "harvester"))
               harvester now
  ++ unlock_if (String.eqb action "buy_land"
                && (5 <=? Z.of_nat (length (Player.landPlots player)))
                && negb (holds player "landowner"))
               landowner now
  ++ unlock_if ((10000 <=? Player.coins player) && negb (holds player "millionaire"))
               millionaire now
  ++ unlock_if ((25 <=? Player.level player) && negb (holds player "master_gardener"))
               master_gardener now.

End Achievements.

(** ** Proximity index *)

Module Proximity.

(** [Math.pow(d, 2)] *)
Definition pow2 (d : Q) : Q := (d * d)%Q.

(** [Math.sqrt(v) <= radius], decided on exact values: a square root is
    never negative, and it is at most a non-negative [radius] exactly when
    [v] is at most [radius] squared ([sqrt_le_sound] relates this to the
    real square root). *)
Definition sqrt_le (v radius : Q) : bool :=
  Qle_bool 0 radius && Qle_bool v (radius * radius).

(** The argument of [Math.sqrt] in [getNearbyPlayers]. *)
Definition dist2 (p player : Player.t) : Q :=
  (pow2 (pos_x (Player.position p) - pos_x (Player.position player))
   + pow2 (pos_z (Player.position p) - pos_z (Player.position player)))%Q.

Definition getNearbyPlayers (player : Player.t) (biome : Biome.t) (radius : Q)
  : list Player.t :=
  List.filter
    (fun p =>
       if String.eqb (Player.id p) (Player.id player) then false
       else sqrt_le (dist2 p player) radius)
    (Biome.players biome).

(** Default value of the [radius] parameter. *)
Definition default_radius : Q := 20%Q.


Definition at_xz (name : string) (x z : Q) : Player.t :=
  Player.mk name name 1 0 200 [] [] (mkPosition x 0%Q z) 0.

End Proximity.

(** ** World state coordinator

    The handlers are modelled for requests that carry a post id; without
    one every handler but init and move answers 400 before reading
    anything. An exception escaping a handler body is the handler's 4xx/5xx
    answer and leaves the store as it was when it was thrown. *)

Module Coordinator.
Import Plots Achievements Proximity.

(** Process state ([claimedPlots], [chatMessages]) and the redis store. *)
Record World := mkWorld {
  claimedPlots : gset string;
  chatMessages : list ChatMessage.t;
  players : gmap string Player.t;
  biomes : gmap string Biome.t;
  gameStates : gmap string GameState.t
}.

Definition emptyWorld : World := mkWorld ∅ [] ∅ ∅ ∅.

(** What a handler sends back: an error status with its message, or the
    JSON body of the action. *)
Inductive Response :=
| RespError (status : Z) (message : string)
| RespInit (gameState : GameState.t) (username : string)
           (nearbyPlayers : list Player.t)
| RespPlantTree (gameState : GameState.t) (success : bool) (message : string)
                (achievements : option (list Achievement.t))
| RespBuyLand (gameState : GameState.t) (success : bool) (message : string)
              (landPlot : option LandPlot.t)
              (achievements : option (list Achievement.t))
| RespMovePlayer (gameState : GameState.t) (position : Position)
| RespWaterTree (gameState : GameState.t) (success : bool) (message : string)
| RespHarvestTree (gameState : GameState.t) (rewards : Z * Z * Z)
                  (achievements : option (list Achievement.t))
| RespBuySeeds (gameState : GameState.t) (success : bool) (message : string).

(** The [gameState] field of a response body, when it has one. *)
Definition response_gameState (r : Response) : option GameState.t :=
  match r with
  | RespError _ _ => None
  | RespInit g _ _ | RespPlantTree g _ _ _ | RespBuyLand g _ _ _ _
  | RespMovePlayer g _ | RespWaterTree g _ _ | RespHarvestTree g _ _
  | RespBuySeeds g _ _ => Some g
  end.

(** *** Store access *)

Definition savePlayer (w : World) (player : Player.t) : World :=
  mkWorld (claimedPlots w) (chatMessages w)
          (<[Player.id player := player]> (players w)) (biomes w) (gameStates w).

Definition saveBiome (w : World) (biome : Biome.t) : World :=
  mkWorld (claimedPlots w) (chatMessages w) (players w)
          (<[Biome.id biome := biome]> (biomes w)) (gameStates w).

(** [saveGameState] stamps [lastPlayed] on the object it was given before
    writing it; the caller keeps using that same object. *)
Definition stamp (gameState : GameState.t) (now : Z) : GameState.t :=
  GameState.mk (GameState.player gameState) (GameState.currentBiome gameState)
               (GameState.trees gameState) (GameState.resources gameState) now.

Definition saveGameState (w : World) (gameState : GameState.t) (now : Z)
  : World * GameState.t :=
  let gameState := stamp gameState now in
  (mkWorld (claimedPlots w) (chatMessages w) (players w) (biomes w)
           (<[Player.id (GameState.player gameState) := gameState]> (gameStates w)),
   gameState).

Definition with_claimedPlots (w : World) (c : gset string) : World :=
  mkWorld c (chatMessages w) (players w) (biomes w) (gameStates w).

(** *** Defaults *)

Definition getDefaultPlayer (username : string) (now : Z) : Player.t :=
  Player.mk username username 1 0 200 [] [] (mkPosition 0%Q 0%Q 0%Q) now.

Definition getDefaultBiome : Biome.t :=
  Biome.mk "massive_world" "The Eternal Forest" forest MAX_PLAYERS [] [].

Definition getDefaultGameState (player : Player.t) (biome : Biome.t)
  : GameState.t :=
  GameState.mk player biome [] (Resources.mk 5 10 0 (Player.coins player)) 0.

(** *** Starting land

    [allocateStartingLand(player, biome)] mutates the claimed set, the
    player and the biome, or throws. *)
Definition allocateStartingLand (claimed : gset string) (player : Player.t)
    (biome : Biome.t) (now : Z) (freshLandId : string)
  : string + (gset string * Player.t * Biome.t) :=
  match findAvailablePlot claimed with
  | None => inl "No available plots in the world"
  | Some (gridX, gridZ) =>
      let coords := getPlotWorldCoordinates gridX gridZ in
      match claimPlot claimed gridX gridZ with
      | (false, _) => inl "Failed to claim plot"
      | (true, claimed) =>
          let landPlot :=
            LandPlot.mk freshLandId (centerX coords) (centerZ coords)
                        (Player.id player) (Biome.type biome) [] now 0 in
          let biome := Biome.with_landPlots biome (Biome.landPlots biome ++ [landPlot]) in
          let player :=
            Player.with_landPlots player (Player.landPlots player ++ [LandPlot.id landPlot]) in
          let player :=
            Player.with_position player (mkPosition (centerX coords) 0%Q (centerZ coords)) in
          inr (claimed, player, biome)
      end
  end.

(** *** GET /api/init

    [username] is what [reddit.getCurrentUsername()] gave (or the
    development fallback). For a new player the handler pushes the player
    object onto [biome.players] and only then lets [allocateStartingLand]
    mutate that same object, so the roster that is saved holds the player
    with the starting plot and spawn position. *)
Definition init (w : World) (username : string) (now : Z) (freshLandId : string)
  : World * Response :=
  let '(biome, w) :=
    match biomes w !! "massive_world" with
    | Some biome => (biome, w)
    | None => (getDefaultBiome, saveBiome w getDefaultBiome)
    end in
  let allocated : string + (World * Player.t * Biome.t) :=
    match players w !! username with
    | None =>
        let player := getDefaultPlayer username now in
        match allocateStartingLand (claimedPlots w) player biome now freshLandId with
        | inl err => inl err
        | inr (claimed, player, biome) =>
            let biome := Biome.with_players biome (Biome.players biome ++ [player]) in
            let w := with_claimedPlots w claimed in
            let w := savePlayer w player in
            let w := saveBiome w biome in
            inr (w, player, biome)
        end
    | Some player =>
        let player := Player.with_lastActive player now in
        inr (savePlayer w player, player, biome)
    end in
  match allocated with
  | inl err => (w, RespError 400 ("Initialization failed: " +:+ err))
  | inr (w, player, biome) =>
      let '(w, gameState) :=
        match gameStates w !! Player.id player with
        | None => saveGameState w (getDefaultGameState player biome) now
        | Some gameState =>
            let gameState :=
              GameState.mk player biome (GameState.trees gameState)
                           (GameState.resources gameState)
                           (GameState.lastPlayed gameState) in
            saveGameState w gameState now
        end in
      let nearbyPlayers := getNearbyPlayers player biome default_radius in
      (w, RespInit gameState username nearbyPlayers)
  end.

(** *** Array helpers *)

(** [xs.findIndex(f)] together with [xs[index]]; [None] is [-1]. *)
Fixpoint findIndexed {A : Type} (f : A -> bool) (l : list A) : option (nat * A) :=
  match l with
  | [] => None
  | a :: l' =>
      if f a then Some (O, a)
      else match findIndexed f l' with
           | Some (i, b) => Some (S i, b)
           | None => None
           end
  end.

(** [a < b] on numbers. *)
Definition Qlt_bool (a b : Q) : bool := negb (Qle_bool b a).

Definition treeTypeName (t : TreeType) : string :=
  match t with
  | oak => "oak" | pine => "pine" | cherry => "cherry"
  | maple => "maple" | cedar => "cedar"
  end.

(** *** POST /api/plant-tree *)
Definition plantTree (w : World) (playerId : string) (treeType : TreeType)
    (x z : Q) (now : Z) (freshTreeId : string) : World * Response :=
  match gameStates w !! playerId with
  | None => (w, RespError 404 "Game state not found")
  | Some gameState =>
      let player := GameState.player gameState in
      let biome := GameState.currentBiome gameState in
      let resources := GameState.resources gameState in
      match findIndexed
              (fun plot =>
                 Qlt_bool (Qabs (LandPlot.x plot - x)) 5
                 && Qlt_bool (Qabs (LandPlot.z plot - z)) 5
                 && String.eqb (LandPlot.ownerId plot) (Player.id player))
              (Biome.landPlots biome) with
      | None =>
          (w, RespPlantTree gameState false
                "You can only plant trees on your own land!" None)
      | Some (plotIndex, landPlot) =>
          if MAX_TREES_PER_PLOT <=? Z.of_nat (length (LandPlot.trees landPlot)) then
            (w, RespPlantTree gameState false "This land plot is full!" None)
          else if Resources.seeds resources <=? 0 then
            (w, RespPlantTree gameState false "Not enough seeds!" None)
          else
            let newTree :=
              Tree.mk freshTreeId treeType x 0%Q z 0 now now 100 (Player.id player) in
            let trees := GameState.trees gameState ++ [newTree] in
            let landPlot :=
              LandPlot.with_trees landPlot (LandPlot.trees landPlot ++ [Tree.id newTree]) in
            let biome :=
              Biome.with_landPlots biome (<[plotIndex := landPlot]> (Biome.landPlots biome)) in
            let resources :=
              Resources.mk (Resources.seeds resources - 1) (Resources.water resources)
                           (Resources.fertilizer resources) (Resources.coins resources) in
            let player := Player.with_experience player (Player.experience player + 10) in
            let newAchievements :=
              checkAchievements player "plant_tree" (Some (Z.of_nat (length trees))) now in
            let player :=
              Player.with_achievements player (Player.achievements player ++ newAchievements) in
            let gameState :=
              GameState.mk player biome trees resources (GameState.lastPlayed gameState) in
            let '(w, gameState) := saveGameState w gameState now in
            let w := savePlayer w player in
            let w := saveBiome w biome in
            (w, RespPlantTree gameState true
                  ("Planted a " +:+ treeTypeName treeType +:+ " tree!")
                  (Some newAchievements))
      end
  end.

(** *** POST /api/buy-land *)
Definition buyLand (w : World) (playerId : string) (x z : Q) (now : Z)
    (freshLandId : string) : World * Response :=
  match gameStates w !! playerId with
  | None => (w, RespError 404 "Game state not found")
  | Some gameState =>
      let player := GameState.player gameState in
      let biome := GameState.currentBiome gameState in
      let resources := GameState.resources gameState in
      match List.find
              (fun plot =>
                 Qlt_bool (Qabs (LandPlot.x plot - x)) 10
                 && Qlt_bool (Qabs (LandPlot.z plot - z)) 10)
              (Biome.landPlots biome) with
      | Some existingPlot =>
          (w, RespBuyLand gameState false "This land is already owned!" None None)
      | None =>
          if Player.coins player <? LAND_PLOT_COST then
            (w, RespBuyLand gameState false "Not enough coins!" None None)
          else
            let newLandPlot :=
              LandPlot.mk freshLandId x z (Player.id player) (Biome.type biome) []
                          now LAND_PLOT_COST in
            let biome :=
              Biome.with_landPlots biome (Biome.landPlots biome ++ [newLandPlot]) in
            let player :=
              Player.with_landPlots player
                (Player.landPlots player ++ [LandPlot.id newLandPlot]) in
            let player := Player.with_coins player (Player.coins player - LAND_PLOT_COST) in
            let resources :=
              Resources.mk (Resources.seeds resources) (Resources.water resources)
                           (Resources.fertilizer resources) (Player.coins player) in
            let newAchievements :=
              checkAchievements player "buy_land"
                (Some (Z.of_nat (length (Player.landPlots player)))) now in
            let player :=
              Player.with_achievements player (Player.achievements player ++ newAchievements) in
            let gameState :=
              GameState.mk player biome (GameState.trees gameState) resources
                           (GameState.lastPlayed gameState) in
            let '(w, gameState) := saveGameState w gameState now in
            let w := savePlayer w player in
            let w := saveBiome w biome in
            (w, RespBuyLand gameState true
                  ("Purchased land plot for " +:+ pretty LAND_PLOT_COST +:+ " coins!")
                  (Some newLandPlot) (Some newAchievements))
      end
  end.

(** *** POST /api/move-player *)
Definition movePlayer (w : World) (playerId : string) (x y z : Q) (now : Z)
  : World * Response :=
  match gameStates w !! playerId with
  | None => (w, RespError 404 "Game state not found")
  | Some gameState =>
      let player := GameState.player gameState in
      let biome := GameState.currentBiome gameState in
      let player := Player.with_position player (mkPosition x y z) in
      let biome :=
        match findIndexed (fun p => String.eqb (Player.id p) (Player.id player))
                          (Biome.players biome) with
        | Some (biomePlayerIndex, _) =>
            Biome.with_players biome (<[biomePlayerIndex := player]> (Biome.players biome))
        | None => biome
        end in
      let gameState :=
        GameState.mk player biome (GameState.trees gameState)
                     (GameState.resources gameState) (GameState.lastPlayed gameState) in
      let '(w, gameState) := saveGameState w gameState now in
      let w := savePlayer w player in
      let w := saveBiome w biome in
      (w, RespMovePlayer gameState (mkPosition x y z))
  end.

(** *** POST /api/water-tree *)
Definition waterTree (w : World) (playerId treeId : string) (now : Z)
  : World * Response :=
  match gameStates w !! playerId with
  | None => (w, RespError 404 "Game state not found")
  | Some gameState =>
      let resources := GameState.resources gameState in
      if Resources.water resources <=? 0 then
        (w, RespWaterTree gameState false "Not enough water!")
      else
        match findIndexed (fun t => String.eqb (Tree.id t) treeId)
                          (GameState.trees gameState) with
        | None => (w, RespWaterTree gameState false "Tree not found!")
        | Some (treeIndex, tree) =>
            let tree :=
              Tree.mk (Tree.id tree) (Tree.type tree) (Tree.x tree) (Tree.y tree)
                      (Tree.z tree) (Tree.growthStage tree) (Tree.plantedAt tree)
                      now (Z.min 100 (Tree.health tree + 20)) (Tree.ownerId tree) in
            let resources :=
              Resources.mk (Resources.seeds resources) (Resources.water resources - 1)
                           (Resources.fertilizer resources) (Resources.coins resources) in
            let player := GameState.player gameState in
            let player := Player.with_experience player (Player.experience player + 5) in
            let gameState :=
              GameState.mk player (GameState.currentBiome gameState)
                           (<[treeIndex := tree]> (GameState.trees gameState))
                           resources (GameState.lastPlayed gameState) in
            let '(w, gameState) := saveGameState w gameState now in
            (w, RespWaterTree gameState true
                  ("Watered " +:+ treeTypeName (Tree.type tree) +:+ " tree!"))
        end
  end.

(** The [baseReward] table of the harvest handler. *)
Definition baseReward (t : TreeType) : Z :=
  match t with
  | oak => 20 | pine => 15 | cherry => 25 | maple => 18 | cedar => 22
  end.

(** *** POST /api/harvest-tree

    [roll] is [Math.floor(Math.random() * 3)]. *)
Definition harvestTree (w : World) (playerId treeId : string) (now : Z) (roll : Z)
  : World * Response :=
  match gameStates w !! playerId with
  | None => (w, RespError 404 "Game state not found")
  | Some gameState =>
      match findIndexed (fun t => String.eqb (Tree.id t) treeId)
                        (GameState.trees gameState) with
      | None => (w, RespError 404 "Tree not found!")
      | Some (treeIndex, tree) =>
          if Tree.growthStage tree <? 5 then
            (w, RespHarvestTree gameState (0, 0, 0) None)
          else
            let coins :=
              Qfloor (inject_Z (baseReward (Tree.type tree))
                      * (inject_Z (Tree.health tree) / 100))%Q in
            let seeds := roll + 1 in
            let experience := Qfloor (inject_Z coins * 0.5)%Q in
            let resources := GameState.resources gameState in
            let player := GameState.player gameState in
            let player := Player.with_coins player (Player.coins player + coins) in
            let resources :=
              Resources.mk (Resources.seeds resources + seeds) (Resources.water resources)
                           (Resources.fertilizer resources) (Player.coins player) in
            let player :=
              Player.with_experience player (Player.experience player + experience) in
            let trees := delete treeIndex (GameState.trees gameState) in
            let newAchievements :=
              checkAchievements player "harvest_tree" (Some (Z.of_nat (length trees))) now in
            let player :=
              Player.with_achievements player (Player.achievements player ++ newAchievements) in
            let gameState :=
              GameState.mk player (GameState.currentBiome gameState) trees resources
                           (GameState.lastPlayed gameState) in
            let '(w, gameState) := saveGameState w gameState now in
            let w := savePlayer w player in
            (w, RespHarvestTree gameState (coins, seeds, experience) (Some newAchievements))
      end
  end.

(** *** POST /api/buy-seeds

    [quantity] is the optional body field, [1] when it is absent. *)
Definition buySeeds (w : World) (playerId : string) (treeType : TreeType)
    (quantity : option Z) (now : Z) : World * Response :=
  let quantity := default 1 quantity in
  match gameStates w !! playerId with
  | None => (w, RespError 404 "Game state not found")
  | Some gameState =>
      let totalCost := SEED_COST * quantity in
      let player := GameState.player gameState in
      let resources := GameState.resources gameState in
      if Player.coins player <? totalCost then
        (w, RespBuySeeds gameState false "Not enough coins!")
      else
        let player := Player.with_coins player (Player.coins player - totalCost) in
        let resources :=
          Resources.mk (Resources.seeds resources + quantity) (Resources.water resources)
                       (Resources.fertilizer resources) (Player.coins player) in
        let gameState :=
          GameState.mk player (GameState.currentBiome gameState)
                       (GameState.trees gameState) resources
                       (GameState.lastPlayed gameState) in
        let '(w, gameState) := saveGameState w gameState now in
        let w := savePlayer w player in
        (w, RespBuySeeds gameState true
              ("Bought " +:+ pretty quantity +:+ " " +:+ treeTypeName treeType +:+ " seeds!"))
  end.

(** *** Chat endpoints

    [sendChatMessage] answers with an error status or the stored message;
    [chatMessagesEndpoint] takes the result of [parseInt(req.query.limit)]
    ([None] for [NaN]) and applies [|| 20]. *)
Definition sendChatMessage (w : World) (playerId message : string) (now : Z)
    (freshId : string) : World * (Z * string + ChatMessage.t) :=
  if String.eqb playerId "" || String.eqb message "" then
    (w, inl (400, "Missing required fields"))
  else if (200 <? Z.of_nat (String.length message)) then
    (w, inl (400, "Message too long (max 200 characters)"))
  else
    match players w !! playerId with
    | None => (w, inl (404, "Player not found"))
    | Some player =>
        let '(buffer, chatMessage) :=
          Chat.addChatMessage (chatMessages w) freshId playerId
                              (Player.username player) message now chat_player in
        (mkWorld (claimedPlots w) buffer (players w) (biomes w) (gameStates w),
         inr chatMessage)
    end.

Definition chatMessagesEndpoint (w : World) (parsedLimit : option Z)
  : list ChatMessage.t :=
  let limit :=
    match parsedLimit with
    | Some n => if n =? 0 then 20 else n
    | None => 20
    end in
  Chat.getRecentChatMessages (chatMessages w) limit.

(** *** Actions

    One request cycle per action; [step] dispatches to the handler. *)
Inductive Action :=
| Init (username freshLandId : string)
| PlantTree (playerId : string) (treeType : TreeType) (x z : Q) (freshTreeId : string)
| BuyLand (playerId : string) (x z : Q) (freshLandId : string)
| MovePlayer (playerId : string) (x y z : Q)
| WaterTree (playerId treeId : string)
| HarvestTree (playerId treeId : string) (roll : Z)
| BuySeeds (playerId : string) (treeType : TreeType) (quantity : option Z).

Definition step (w : World) (a : Action) (now : Z) : World * Response :=
  match a with
  | Init username freshLandId => init w username now freshLandId
  | PlantTree playerId treeType x z freshTreeId =>
      plantTree w playerId treeType x z now freshTreeId
  | BuyLand playerId x z freshLandId => buyLand w playerId x z now freshLandId
  | MovePlayer playerId x y z => movePlayer w playerId x y z now
  | WaterTree playerId treeId => waterTree w playerId treeId now
  | HarvestTree playerId treeId roll => harvestTree w playerId treeId now roll
  | BuySeeds playerId treeType quantity => buySeeds w playerId treeType quantity now
  end.

Definition is_init (a : Action) : bool :=
  match a with Init _ _ => true | _ => false end.

(** The game-state record an action reads from the store: the one under
    the request's player id, and for init the one under the id of the
    player record found for the username (the username itself for a new
    player). *)
Definition loaded (w : World) (a : Action) : option GameState.t :=
  match a with
  | Init username _ =>
      match players w !! username with
      | Some player => gameStates w !! Player.id player
      | None => gameStates w !! username
      end
  | PlantTree playerId _ _ _ _ | BuyLand playerId _ _ _ | MovePlayer playerId _ _ _
  | WaterTree playerId _ | HarvestTree playerId _ _ | BuySeeds playerId _ _ =>
      gameStates w !! playerId
  end.

(** Run a list of timed actions from a world. *)
Fixpoint run (w : World) (script : list (Action * Z)) : World :=
  match script with
  | [] => w
  | (a, now) :: script => run (fst (step w a now)) script
  end.

(** Worlds the server can get to from an empty store. *)
Inductive reachable : World -> Prop :=
| reachable_empty : reachable emptyWorld
| reachable_step w a now : reachable w -> reachable (fst (step w a now)).

(** The wallet and the player agree on the coin balance. *)
Definition coins_synced (gameState : GameState.t) : Prop :=
  Resources.coins (GameState.resources gameState)
  = Player.coins (GameState.player gameState).

(** The footprint of a land plot: the [PLOT_WIDTH] by [PLOT_HEIGHT]
    rectangle around its centre, as [getPlotWorldCoordinates] lays plots
    out. Two footprints overlap when their interiors meet. *)
Definition footprints_overlap (a b : LandPlot.t) : bool :=
  Qlt_bool (Qabs (LandPlot.x a - LandPlot.x b)) (inject_Z PLOT_WIDTH)
  && Qlt_bool (Qabs (LandPlot.z a - LandPlot.z b)) (inject_Z PLOT_HEIGHT).

(** The land plots of the shared biome record, as (id, owner, grid cell). *)
Definition plot_cells (w : World) : list (string * string * (Z * Z)) :=
  match biomes w !! "massive_world" with
  | Some biome =>
      map (fun plot => (LandPlot.id plot, LandPlot.ownerId plot,
                        cellOf (LandPlot.x plot) (LandPlot.z plot)))
          (Biome.landPlots biome)
  | None => []
  end.

(** Pairs of distinct entries of a plot list whose footprints overlap. *)
Fixpoint overlapping_pairs (plots : list LandPlot.t) : list (string * string) :=
  match plots with
  | [] => []
  | a :: plots =>
      map (fun b => (LandPlot.id a, LandPlot.id b))
          (List.filter (footprints_overlap a) plots)
      ++ overlapping_pairs plots
  end.

(** Whether a response reports a committed action. A harvest answer has no
    success flag; it carries the unlocked achievements only when the tree
    was harvested. *)
Definition committed (r : Response) : bool :=
  match r with
  | RespError _ _ => false
  | RespInit _ _ _ | RespMovePlayer _ _ => true
  | RespPlantTree _ success _ _ | RespBuyLand _ success _ _ _
  | RespWaterTree _ success _ | RespBuySeeds _ success _ => success
  | RespHarvestTree _ _ achievements => bool_decide (is_Some achievements)
  end.

(** The outcome of every action of a script, in order. *)
Fixpoint outcomes (w : World) (script : list (Action * Z)) : list bool :=
  match script with
  | [] => []
  | (a, now) :: script =>
      committed (snd (step w a now)) :: outcomes (fst (step w a now)) script
  end.

(** Scenario worlds used by the examples below. *)
Definition alice_joined : World :=
  run emptyWorld [(Init "alice" "land_1", 1000)].

Definition alice_planted : World :=
  run alice_joined [(PlantTree "alice" oak (-995)%Q (-1990)%Q "tree_1", 1000)].

Definition double_claim : list (Action * Z) :=
  [ (Init "alice" "land_1", 1000);
    (BuyLand "alice" (-995)%Q (-1970)%Q "land_2", 2000);
    (Init "bob" "land_3", 3000) ].






(** Overlapping pairs among the plots of the shared biome record. *)
Definition biome_overlaps (w : World) : list (string * string) :=
  match biomes w !! "massive_world" with
  | Some biome => overlapping_pairs (Biome.landPlots biome)
  | None => []
  end.


(** A game state as the handlers leave it: balances agree and are not
    negative, and every tree still carries the stage it was planted with. *)
Definition settled (gameState : GameState.t) : Prop :=
  coins_synced gameState
  /\ 0 <= Player.coins (GameState.player gameState)
  /\ Forall (fun t => Tree.growthStage t = 0) (GameState.trees gameState).

(** Records are filed under the id they carry, and the player record of a
    game state agrees with it on the balance. *)
Definition consistent (w : World) : Prop :=
  (forall key player, players w !! key = Some player ->
        Player.id player = key /\ 0 <= Player.coins player)
  /\ (forall key gameState, gameStates w !! key = Some gameState ->
        Player.id (GameState.player gameState) = key
        /\ settled gameState
        /\ exists player, players w !! key = Some player
             /\ Player.coins player = Player.coins (GameState.player gameState)).

End Coordinator.

(** ** Tree health *)

Module Health.


End Health.

(** ** Remaining endpoints *)

Module Endpoints.
Import Proximity Coordinator.

(** GET /api/nearby-players: the neighbours of the stored player within the
    default radius, taken from the roster of the player's own game state. *)
Definition nearbyPlayers (w : World) (playerId : string)
  : Z * string + list Player.t :=
  match gameStates w !! playerId with
  | None => inl (404, "Game state not found")
  | Some gameState =>
      inr (getNearbyPlayers (GameState.player gameState)
                            (GameState.currentBiome gameState) default_radius)
  end.

(** Appending a list of messages one [addChatMessage] at a time. *)
Definition addAll (buffer : list ChatMessage.t) (messages : list ChatMessage.t)
  : list ChatMessage.t :=
  foldl (fun buffer m =>
           fst (Chat.addChatMessage buffer (ChatMessage.id m) (ChatMessage.playerId m)
                  (ChatMessage.username m) (ChatMessage.message m)
                  (ChatMessage.timestamp m) (ChatMessage.type m)))
        buffer messages.

End Endpoints.

(** ** The earlier revision of starting land ([src/server/index.ts])

    Before the grid allocator, starting land was found by drawing random
    grid-aligned spots. [draw n] is the pair of [Math.random()] values of
    the n-th pass through the loop. *)

Module Legacy.

Definition BIOME_SIZE : Z := 100.

(** [getRandomPosition()], for the two draws [rx] and [rz]. *)
Definition getRandomPosition (rx rz : Q) : Position :=
  mkPosition ((rx - 0.5) * inject_Z BIOME_SIZE)%Q 0%Q
             ((rz - 0.5) * inject_Z BIOME_SIZE)%Q.

(** [Math.floor((Math.random() - 0.5) * 40) * 10] *)
Definition spot (r : Q) : Z := Qfloor ((r - 0.5) * 40)%Q * 10.

(** [biome.landPlots.find(plot => |plot.x - x| < 10 && |plot.z - z| < 10)]
    as a truth value. *)
Definition taken (plots : list LandPlot.t) (x z : Z) : bool :=
  existsb (fun plot =>
             Coordinator.Qlt_bool (Qabs (LandPlot.x plot - inject_Z x)) 10
             && Coordinator.Qlt_bool (Qabs (LandPlot.z plot - inject_Z z)) 10)
          plots.

(** The [while (attempts < 100)] loop, with [fuel] passes left. *)
Fixpoint search (plots : list LandPlot.t) (draw : nat -> Q * Q)
    (fuel attempts : nat) (x z : Z) : Z * Z :=
  match fuel with
  | O => (x, z)
  | S fuel =>
      let x := spot (fst (draw attempts)) in
      let z := spot (snd (draw attempts)) in
      if taken plots x z then search plots draw fuel (S attempts) x z
      else (x, z)
  end.


(** [allocateStartingLand(player, biome)] of the earlier revision: the
    player and the biome after it. It never throws. *)
Definition allocateStartingLand (player : Player.t) (biome : Biome.t)
    (draw : nat -> Q * Q) (now : Z) : Player.t * Biome.t :=
  let '(x, z) := search (Biome.landPlots biome) draw 100 0 0 0 in
  let startingLandPlot :=
    LandPlot.mk ("land_" +:+ Player.id player +:+ "_start") (inject_Z x) (inject_Z z)
                (Player.id player) (Biome.type biome) [] now 0 in
  let biome :=
    Biome.with_landPlots biome (Biome.landPlots biome ++ [startingLandPlot]) in
  let player :=
    Player.with_landPlots player
      (Player.landPlots player ++ [LandPlot.id startingLandPlot]) in
  let player :=
    Player.with_position player (mkPosition (inject_Z x) 0%Q (inject_Z z)) in
  (player, biome).

End Legacy.

(** ** Vocabulary of the further properties *)

Module Upkeep.
Import Coordinator.

(** No comma among the characters of a string. *)
Fixpoint comma_free (s : string) : Prop :=
  match s with
  | EmptyString => True
  | String c s => c <> ","%char /\ comma_free s
  end.

(** The actions whose handler ends with [saveBiome]. *)
Definition writes_biome (a : Action) : bool :=
  match a with
  | PlantTree _ _ _ _ _ | BuyLand _ _ _ _ | MovePlayer _ _ _ _ => true
  | _ => false
  end.

(** The plot id an action adds to the biome, if any. *)
Definition bought (a : Action) : list string :=
  match a with
  | BuyLand _ _ _ freshLandId => [freshLandId]
  | _ => []
  end.

(** A player's unlocked achievements are unique by id. *)
Definition ids_distinct (player : Player.t) : Prop :=
  NoDup (map Achievement.id (Player.achievements player)).

(** No plot of the biome lists more trees than a plot may hold. *)
Definition within_capacity (biome : Biome.t) : Prop :=
  Forall (fun plot => Z.of_nat (length (LandPlot.trees plot)) <= MAX_TREES_PER_PLOT)
         (Biome.landPlots biome).

(** The stored stage and health of a tree are those it was planted with. *)
Definition as_planted (tree : Tree.t) : Prop :=
  Tree.growthStage tree = 0 /\ Tree.health tree = 100.

Definition well_kept (w : World) : Prop :=
  (forall key player, players w !! key = Some player -> ids_distinct player)
  /\ (forall key biome, biomes w !! key = Some biome -> within_capacity biome)
  /\ (forall key gameState, gameStates w !! key = Some gameState ->
        ids_distinct (GameState.player gameState)
        /\ within_capacity (GameState.currentBiome gameState)
        /\ Forall as_planted (GameState.trees gameState)).

(** The game state on file for a player (a blank one if there is none). *)
Definition on_file (w : World) (playerId : string) : GameState.t :=
  default (getDefaultGameState (getDefaultPlayer "" 0) getDefaultBiome)
          (gameStates w !! playerId).

(** Selectors used to name stored records in scenarios. *)
Definition shared_biome (w : World) : Biome.t :=
  default getDefaultBiome (biomes w !! "massive_world").

Definition first_plot (biome : Biome.t) : LandPlot.t :=
  default (LandPlot.mk "" 0 0 "" (Biome.type biome) [] 0 0)
          (head (Biome.landPlots biome)).

Definition oldest_tree (gameState : GameState.t) : Tree.t :=
  default (Tree.mk "" oak 0 0 0 0 0 0 0 "") (head (GameState.trees gameState)).

(** Scenario worlds: the cap reached with nobody registered; alice and bob
    both registered; alice with a tree and a chat message. *)
Definition full_house : World := mkWorld Plots.first_column [] ∅ ∅ ∅.

Definition two_joined : World :=
  run emptyWorld [(Init "alice" "land_1", 1000); (Init "bob" "land_2", 2000)].

Definition constant_draw (r : Q) : nat -> Q * Q := fun _ => (r, r).

End Upkeep.

(** * Properties *)

Module GrowthFacts.
Import Growth.

(** The floor of a quotient by the growth period, in integers. *)
Lemma Qfloor_scaled (t : Z) :
  Qfloor ((inject_Z t * 1) / inject_Z GROWTH_TIME) = t / 30000.
Proof.
  unfold GROWTH_TIME.
  assert (E : ((inject_Z t * 1) / inject_Z 30000 == t # 30000)%Q).
  { unfold Qeq, Qdiv, Qmult, Qinv, inject_Z; simpl. lia. }
  rewrite E. reflexivity.
Qed.

Lemma Qfloor_scaled_bonus (t : Z) :
  Qfloor ((inject_Z t * 1.5) / inject_Z GROWTH_TIME) = (3 * t) / 60000.
Proof.
  unfold GROWTH_TIME.
  assert (E : ((inject_Z t * 1.5) / inject_Z 30000 == (3 * t) # 60000)%Q).
  { unfold Qeq, Qdiv, Qmult, Qinv, inject_Z; simpl. lia. }
  rewrite E. reflexivity.
Qed.

(** Integer closed form of [calculateTreeGrowth]. *)
Lemma calculateTreeGrowth_int (tree : Tree.t) (now : Z) :
  calculateTreeGrowth tree now =
  if now - Tree.lastWatered tree <? 60000
  then Z.min ((3 * (now - Tree.plantedAt tree)) / 60000) 5
  else Z.min ((now - Tree.plantedAt tree) / 30000) 5.
Proof.
  unfold calculateTreeGrowth.
  destruct (now - Tree.lastWatered tree <? 60000).
  - now rewrite Qfloor_scaled_bonus.
  - now rewrite Qfloor_scaled.
Qed.

(** C5. For every tree and every time, the stage the server computes is
    [min(5, floor((now - plantedAt) * waterBonus / growthPeriod))], with a
    growth period of 30000 ms and a water bonus of 1.5 exactly when
    [now - lastWatered < 60000] and 1.0 otherwise. *)
Theorem calculateTreeGrowth_formula (tree : Tree.t) (now : Z) :
  calculateTreeGrowth tree now = growthStage_spec tree now.
Proof.
  unfold calculateTreeGrowth, growthStage_spec, waterBonus_spec,
    maxStage, growthPeriod, wateredWindow, GROWTH_TIME.
  rewrite Z.min_comm. f_equal.
  destruct (Z.ltb_spec (now - Tree.lastWatered tree) 60000);
    destruct (decide (now - Tree.lastWatered tree < 60000)); try lia.
  - reflexivity.
  - apply Qfloor_comp. unfold Qeq, Qdiv, Qmult, Qinv, inject_Z; simpl. lia.
Qed.

(** Planted and watered at 0: stage 1 after one growth period, stage 2 just
    before the bonus window closes, and 5 from 150 s on. *)
Example growth_of_a_fresh_tree :
  map (calculateTreeGrowth (sapling 0 0)) [0; 30000; 59999; 60000; 150000; 900000]
  = [0; 1; 2; 2; 5; 5].
Proof. reflexivity. Qed.

(** The stage drops when the water bonus runs out: planted at 0 and
    watered at 20000, a tree is at stage 3 at 79999 and at stage 2 one
    millisecond later. *)
Lemma growth_drops_when_bonus_expires :
  ~ (forall tree now1 now2, now1 <= now2 ->
       calculateTreeGrowth tree now1 <= calculateTreeGrowth tree now2).
Proof.
  intros H. specialize (H (sapling 0 20000) 79999 80000).
  vm_compute in H. apply H; [discriminate | reflexivity].
Qed.

(** C1 (amended). With [plantedAt] and [lastWatered] fixed, the computed
    stage does not decrease from [now1] to a later [now2] as long as the
    water bonus is the same at both times: the bonus window has already
    closed at [now1], or is still open at [now2]. *)
Theorem growth_monotone_within_bonus (tree : Tree.t) (now1 now2 : Z) :
  now1 <= now2 ->
  60000 <= now1 - Tree.lastWatered tree \/ now2 - Tree.lastWatered tree < 60000 ->
  calculateTreeGrowth tree now1 <= calculateTreeGrowth tree now2.
Proof.
  intros Hle Hbonus. rewrite !calculateTreeGrowth_int.
  destruct (Z.ltb_spec (now1 - Tree.lastWatered tree) 60000);
    destruct (Z.ltb_spec (now2 - Tree.lastWatered tree) 60000); try lia.
  - apply Z.min_le_compat_r, Z.div_le_mono; lia.
  - apply Z.min_le_compat_r, Z.div_le_mono; lia.
Qed.

Lemma growth_monotone_within_bonus_witness :
  calculateTreeGrowth (sapling 0 0) 30000 <= calculateTreeGrowth (sapling 0 0) 59999.
Proof.
  apply (growth_monotone_within_bonus (sapling 0 0) 30000 59999).
  - discriminate.
  - right. reflexivity.
Defined.

End GrowthFacts.

(** ** Chat ring buffer *)

Module ChatFacts.
Import Chat.

Lemma slice_from_negative {A : Type} (n : Z) (l : list A) :
  0 < n -> slice_from (- n) l = last_n (Z.to_nat n) l.
Proof.
  intros Hn. unfold slice_from, last_n.
  destruct (Z.ltb_spec (- n) 0) as [_|]; [|lia].
  f_equal. lia.
Qed.

(** [slice(-0)] is [slice(0)]: asking for zero messages returns them all. *)
Lemma getRecentChatMessages_zero (buf : list ChatMessage.t) :
  getRecentChatMessages buf 0 = buf.
Proof.
  unfold getRecentChatMessages, slice_from. simpl. now rewrite Z.min_l by lia.
Qed.

Lemma last_n_length {A : Type} (n : nat) (l : list A) :
  length (last_n n l) = Nat.min n (length l).
Proof. unfold last_n. rewrite length_drop. lia. Qed.

Lemma last_n_suffix {A : Type} (n : nat) (l : list A) :
  exists evicted, l = evicted ++ last_n n l.
Proof. exists (take (length l - n) l). unfold last_n. now rewrite take_drop. Qed.

Lemma addChatMessage_buffer buf freshId playerId username message now type :
  fst (addChatMessage buf freshId playerId username message now type)
  = last_n 100 (buf ++ [ChatMessage.mk freshId playerId username message now type]).
Proof.
  unfold addChatMessage. cbn [fst].
  set (l := buf ++ [_]).
  destruct (Z.ltb_spec 100 (Z.of_nat (length l))).
  - now rewrite (slice_from_negative 100) by lia.
  - unfold last_n. replace (length l - 100)%nat with 0%nat by lia. reflexivity.
Qed.

(** With limit 0 the call is [slice(-0)], that is [slice(0)]: the whole
    buffer comes back, not the last zero messages. *)
Lemma recent_zero_returns_everything :
  ~ (forall (buf : list ChatMessage.t) (limit : Z), 0 <= limit ->
       getRecentChatMessages buf limit = last_n (Z.to_nat limit) buf).
Proof.
  intros H. specialize (H [note 1] 0).
  vm_compute in H. discriminate H. discriminate.
Qed.

(** C9 (amended). After an append the buffer is the last 100 entries of
    the old buffer followed by the new message, so it never holds more than
    100 messages and loses them oldest first; and for every positive limit
    [getRecentChatMessages] returns the last [limit] stored messages (all of
    them when fewer are stored), oldest first. *)
Theorem chat_buffer_bounded_recent_suffix
    (buf : list ChatMessage.t) (freshId playerId username message : string)
    (now : Z) (type : ChatKind) (limit : Z) :
  0 < limit ->
  let stored := fst (addChatMessage buf freshId playerId username message now type) in
  let sent := snd (addChatMessage buf freshId playerId username message now type) in
  (length stored <= 100)%nat
  /\ stored = last_n 100 (buf ++ [sent])
  /\ (exists evicted, buf ++ [sent] = evicted ++ stored)
  /\ getRecentChatMessages buf limit = last_n (Z.to_nat limit) buf
  /\ length (getRecentChatMessages buf limit) = Nat.min (Z.to_nat limit) (length buf).
Proof.
  intros Hlimit stored sent.
  assert (Hstored : stored = last_n 100 (buf ++ [sent])).
  { unfold stored, sent. rewrite addChatMessage_buffer. reflexivity. }
  assert (Hrecent : getRecentChatMessages buf limit = last_n (Z.to_nat limit) buf).
  { unfold getRecentChatMessages. now apply slice_from_negative. }
  repeat split.
  - rewrite Hstored, last_n_length. lia.
  - exact Hstored.
  - rewrite Hstored. apply last_n_suffix.
  - exact Hrecent.
  - rewrite Hrecent. apply last_n_length.
Qed.

Lemma chat_buffer_bounded_recent_suffix_witness :
  getRecentChatMessages [note 1; note 2; note 3] 2 = [note 2; note 3].
Proof.
  exact (proj1 (proj2 (proj2 (proj2
    (chat_buffer_bounded_recent_suffix [note 1; note 2; note 3]
       "chat_4" "bob" "bob" "hi" 4 chat_player 2 eq_refl))))).
Defined.

End ChatFacts.

(** ** Plot allocator *)

Module PlotFacts.
Import Plots.

Lemma scanZ_Some claimed gridX n gridZ cell :
  scanZ claimed gridX n gridZ = Some cell ->
  fst cell = gridX
  /\ (gridZ <= snd cell < gridZ + Z.of_nat n)
  /\ (plotKey gridX (snd cell) ∉ claimed)
  /\ forall z, gridZ <= z < snd cell -> plotKey gridX z ∈ claimed.
Proof.
  revert gridZ. induction n as [|n IH]; intros gridZ; simpl; [discriminate|].
  case_bool_decide as Hin.
  - intros H. destruct (IH _ H) as (Hx & Hrange & Hfree & Hbefore).
    repeat split; try lia; auto.
    intros z Hz. destruct (decide (z = gridZ)) as [->|]; [done|].
    apply Hbefore. lia.
  - intros [= <-]. simpl. repeat split; try lia; auto.
Qed.

Lemma scanZ_None claimed gridX n gridZ :
  scanZ claimed gridX n gridZ = None <->
  forall z, gridZ <= z < gridZ + Z.of_nat n -> plotKey gridX z ∈ claimed.
Proof.
  revert gridZ. induction n as [|n IH]; intros gridZ; simpl.
  - split; [intros _ z Hz; lia | done].
  - case_bool_decide as Hin.
    + rewrite IH. split; intros H z Hz.
      * destruct (decide (z = gridZ)) as [->|]; [done|]. apply H. lia.
      * apply H. lia.
    + split; [discriminate|]. intros H. exfalso. apply Hin, H. lia.
Qed.

Lemma scanX_Some claimed n gridX cell :
  scanX claimed n gridX = Some cell ->
  (gridX <= fst cell < gridX + Z.of_nat n)
  /\ (0 <= snd cell < GRID_HEIGHT)
  /\ (plotKey (fst cell) (snd cell) ∉ claimed)
  /\ (forall z, 0 <= z < snd cell -> plotKey (fst cell) z ∈ claimed)
  /\ forall x z, gridX <= x < fst cell -> 0 <= z < GRID_HEIGHT -> plotKey x z ∈ claimed.
Proof.
  revert gridX. induction n as [|n IH]; intros gridX; cbn [scanX]; [discriminate|].
  destruct (scanZ claimed gridX (Z.to_nat GRID_HEIGHT) 0) as [found|] eqn:Hz.
  - intros [= <-]. apply scanZ_Some in Hz as (Hx & Hrange & Hfree & Hbefore).
    rewrite Hx. rewrite Z2Nat.id in Hrange by (vm_compute; discriminate).
    repeat split; try lia; auto.
  - intros H. destruct (IH _ H) as (Hrange & Hr2 & Hfree & Hcol & Hbefore).
    repeat split; try lia; auto.
    intros x z Hx Hzr. destruct (decide (x = gridX)) as [->|].
    + rewrite scanZ_None in Hz. apply Hz.
      rewrite Z2Nat.id by (vm_compute; discriminate). lia.
    + apply Hbefore; lia.
Qed.

Lemma scanX_None claimed n gridX :
  scanX claimed n gridX = None <->
  forall x z, gridX <= x < gridX + Z.of_nat n -> 0 <= z < GRID_HEIGHT ->
              plotKey x z ∈ claimed.
Proof.
  revert gridX. induction n as [|n IH]; intros gridX; cbn [scanX].
  - split; [intros _ x z Hx; lia | done].
  - destruct (scanZ claimed gridX (Z.to_nat GRID_HEIGHT) 0) as [found|] eqn:Hz.
    + split; [discriminate|]. intros H. exfalso.
      apply scanZ_Some in Hz as (_ & Hrange & Hfree & _).
      rewrite Z2Nat.id in Hrange by (vm_compute; discriminate).
      apply Hfree, H; lia.
    + rewrite IH. rewrite scanZ_None in Hz.
      rewrite Z2Nat.id in Hz by (vm_compute; discriminate).
      split; intros H x z Hx Hzr.
      * destruct (decide (x = gridX)) as [->|]; [apply Hz; lia | apply H; lia].
      * apply H; lia.
Qed.

Lemma findAvailablePlot_Some claimed cell :
  findAvailablePlot claimed = Some cell ->
  in_grid (fst cell) (snd cell)
  /\ (plotKey (fst cell) (snd cell) ∉ claimed)
  /\ forall x z, in_grid x z -> scanned_before (x, z) cell -> plotKey x z ∈ claimed.
Proof.
  unfold findAvailablePlot. intros H.
  apply scanX_Some in H as (Hx & Hz & Hfree & Hcol & Hbefore).
  rewrite Z2Nat.id in Hx by (vm_compute; discriminate).
  unfold in_grid. repeat split; try lia; auto.
  intros x z [Hgx Hgz] [Hlt | [Heq Hlt]]; simpl in *.
  - apply Hbefore; lia.
  - subst x. apply Hcol; lia.
Qed.

Lemma findAvailablePlot_None claimed :
  findAvailablePlot claimed = None <->
  forall x z, in_grid x z -> plotKey x z ∈ claimed.
Proof.
  unfold findAvailablePlot. rewrite scanX_None.
  rewrite Z2Nat.id by (vm_compute; discriminate).
  unfold in_grid. split; intros H x z; [intros [? ?] | intros ? ?]; apply H; lia.
Qed.

Lemma claimPlot_at_cap claimed gridX gridZ :
  MAX_PLAYERS <= Z.of_nat (size claimed) ->
  claimPlot claimed gridX gridZ = (false, claimed).
Proof.
  intros Hcap. unfold claimPlot. case_bool_decide; [done|].
  destruct (Z.leb_spec MAX_PLAYERS (Z.of_nat (size claimed))); [done | lia].
Qed.

Lemma first_column_full :
  Z.of_nat (size first_column) = MAX_PLAYERS
  /\ findAvailablePlot first_column = Some (1, 0).
Proof. split; vm_compute; reflexivity. Qed.

(** With the 200 cells of the first column claimed the cap is reached,
    and [findAvailablePlot] still returns a cell: the first one of the
    second column. *)
Lemma findAvailablePlot_ignores_cap :
  ~ (forall claimed : gset string,
       MAX_PLAYERS <= Z.of_nat (size claimed) -> findAvailablePlot claimed = None).
Proof.
  intros H. specialize (H first_column).
  destruct first_column_full as [Hsize Hfound].
  rewrite Hfound in H. discriminate H. rewrite Hsize. reflexivity.
Qed.

(** C6 (amended). [findAvailablePlot] walks the grid with [gridX] in the
    outer loop and [gridZ] in the inner one and returns the first cell whose
    key is not in the claimed set; it returns nothing exactly when every
    cell of the grid is claimed. It does not look at the player cap: the cap
    is the business of [claimPlot], which refuses and leaves the set alone
    once [MAX_PLAYERS] cells are claimed, so that [allocateStartingLand]
    throws instead of handing out a plot. *)
Theorem findAvailablePlot_first_unclaimed (claimed : gset string) :
  match findAvailablePlot claimed with
  | Some (gridX, gridZ) =>
      in_grid gridX gridZ
      /\ (plotKey gridX gridZ ∉ claimed)
      /\ (forall x z, in_grid x z -> scanned_before (x, z) (gridX, gridZ) ->
                      plotKey x z ∈ claimed)
  | None => forall x z, in_grid x z -> plotKey x z ∈ claimed
  end
  /\ ((forall x z, in_grid x z -> plotKey x z ∈ claimed) ->
      findAvailablePlot claimed = None)
  /\ (MAX_PLAYERS <= Z.of_nat (size claimed) ->
      (forall gridX gridZ, claimPlot claimed gridX gridZ = (false, claimed))
      /\ forall player biome now freshLandId,
           exists err,
             Coordinator.allocateStartingLand claimed player biome now freshLandId
             = inl err).
Proof.
  split; [|split].
  - destruct (findAvailablePlot claimed) as [[gridX gridZ]|] eqn:Hfind.
    + exact (findAvailablePlot_Some _ _ Hfind).
    + now apply findAvailablePlot_None.
  - apply findAvailablePlot_None.
  - intros Hcap. split; [intros; now apply claimPlot_at_cap|].
    intros player biome now freshLandId. unfold Coordinator.allocateStartingLand.
    destruct (findAvailablePlot claimed) as [[gridX gridZ]|]; [|eauto].
    rewrite claimPlot_at_cap by assumption. eauto.
Qed.

Lemma findAvailablePlot_first_unclaimed_witness :
  (plotKey 1 0 ∉ first_column)
  /\ claimPlot first_column 1 0 = (false, first_column).
Proof.
  pose proof (findAvailablePlot_first_unclaimed first_column) as (Hscan & _ & Hcap).
  rewrite (proj2 first_column_full) in Hscan.
  split; [exact (proj1 (proj2 Hscan))|].
  apply Hcap. now rewrite (proj1 first_column_full).
Defined.

End PlotFacts.

(** ** Achievement evaluator *)

Module AchievementFacts.
Import Achievements.

Lemma holds_In player key :
  holds player key = true <->
  In key (map Achievement.id (Player.achievements player)).
Proof.
  unfold holds. rewrite existsb_exists, in_map_iff.
  split; intros (a & H1 & H2); exists a.
  - now rewrite String.eqb_eq in H2.
  - split; [assumption|]. now rewrite String.eqb_eq.
Qed.

Lemma in_unlock_if cond a now b :
  In b (unlock_if cond a now) ->
  cond = true /\ b = Achievement.with_unlockedAt a now.
Proof. unfold unlock_if. destruct cond; simpl; intuition. Qed.

Lemma holds_after_append player extra key :
  holds (Player.with_achievements player (Player.achievements player ++ extra)) key
  = holds player key
    || existsb (fun a => String.eqb (Achievement.id a) key) extra.
Proof. unfold holds. simpl. apply existsb_app. Qed.

Lemma existsb_unlock_if cond a now key :
  existsb (fun b => String.eqb (Achievement.id b) key) (unlock_if cond a now)
  = cond && String.eqb (Achievement.id a) key.
Proof. destruct cond; simpl; [apply orb_false_r | reflexivity]. Qed.

(** A rule that was evaluated once cannot fire again: either it fired and
    its id is now held, or what stopped it still does. *)
Lemma rule_spent (base held : bool) :
  base && negb (held || base && negb held) = false.
Proof. destruct base, held; reflexivity. Qed.

Lemma checkAchievements_fresh player action count now a :
  In a (checkAchievements player action count now) ->
  holds player (Achievement.id a) = false.
Proof.
  unfold checkAchievements. rewrite !in_app_iff.
  intros H; decompose [or] H; clear H;
    match goal with
    | H : In _ (unlock_if _ _ _) |- _ =>
        apply in_unlock_if in H as [Hcond ->]
    end;
    rewrite !andb_true_iff, negb_true_iff in Hcond;
    simpl; tauto.
Qed.

Lemma checkAchievements_spent player action count now now' :
  checkAchievements
    (Player.with_achievements player
       (Player.achievements player ++ checkAchievements player action count now))
    action count now' = [].
Proof.
  set (first_call := checkAchievements player action count now).
  unfold checkAchievements at 1.
  rewrite !holds_after_append.
  unfold first_call, checkAchievements.
  rewrite !existsb_app, !existsb_unlock_if.
  cbn [Achievement.id first_tree tree_master harvester landowner millionaire
       master_gardener String.eqb Ascii.eqb Bool.eqb Player.landPlots
       Player.coins Player.level Player.with_achievements].
  rewrite ?andb_false_r, ?andb_true_r, ?orb_false_r, ?orb_false_l.
  rewrite !rule_spent. reflexivity.
Qed.

(** C7. Achievement evaluation is idempotent: no achievement whose id the
    player already holds is returned, and once the returned achievements
    are appended to the player's list a second evaluation for the same
    action and count returns nothing. *)
Theorem checkAchievements_idempotent
    (player : Player.t) (action : string) (count : option Z) (now now' : Z) :
  (forall a, In a (checkAchievements player action count now) ->
             ~ In (Achievement.id a) (map Achievement.id (Player.achievements player)))
  /\ checkAchievements
       (Player.with_achievements player
          (Player.achievements player ++ checkAchievements player action count now))
       action count now' = [].
Proof.
  split.
  - intros a Ha Hheld. apply holds_In in Hheld.
    rewrite (checkAchievements_fresh _ _ _ _ _ Ha) in Hheld. discriminate.
  - apply checkAchievements_spent.
Qed.

(** A first planting unlocks [first_tree]; evaluating again gives nothing. *)
Example checkAchievements_first_plant :
  let player := Proximity.at_xz "alice" 0%Q 0%Q in
  map Achievement.id (checkAchievements player "plant_tree" (Some 1) 7) = ["first_tree"]
  /\ checkAchievements
       (Player.with_achievements player (checkAchievements player "plant_tree" (Some 1) 7))
       "plant_tree" (Some 1) 8 = [].
Proof. split; reflexivity. Qed.

End AchievementFacts.

(** ** Proximity index *)

Module ProximityFacts.
Import Proximity.







(** On the boundary: a player at distance exactly 5 is within radius 5,
    one at distance 13 is not, and the player is not their own neighbour. *)
Example getNearbyPlayers_boundary :
  let me := at_xz "me" 0%Q 0%Q in
  let near := at_xz "near" 3%Q 4%Q in
  let far := at_xz "far" 5%Q 12%Q in
  let biome := Biome.mk "massive_world" "The Eternal Forest" forest 200 []
                        [me; near; far] in
  getNearbyPlayers me biome 5%Q = [near].
Proof. reflexivity. Qed.

End ProximityFacts.

(** ** World state coordinator *)

Module CoordinatorFacts.
Import Plots Achievements Proximity Coordinator.

(** [findIndexed] returns an element of the list, at its index, that
    satisfies the test. *)
Lemma findIndexed_Some {A} (f : A -> bool) (l : list A) i a :
  findIndexed f l = Some (i, a) -> l !! i = Some a /\ f a = true.
Proof.
  revert i. induction l as [|b l IH]; intros i; simpl; [discriminate|].
  destruct (f b) eqn:Hb.
  - intros [= <- <-]. auto.
  - destruct (findIndexed f l) as [[j c]|]; [|discriminate].
    intros [= <- <-]. apply IH. reflexivity.
Qed.



(** Case analysis along the branches of a handler body. *)
Ltac break_handler :=
  repeat first [ progress simplify_eq/= | case_match ].


(** *** The coin balance, action by action *)



(** Starting land changes neither the id nor the balance of the player. *)
Lemma allocateStartingLand_player claimed player biome now freshLandId claimed' player' biome' :
  allocateStartingLand claimed player biome now freshLandId = inr (claimed', player', biome') ->
  Player.id player' = Player.id player /\ Player.coins player' = Player.coins player.
Proof.
  unfold allocateStartingLand. break_handler; intros; simplify_eq/=; done.
Qed.





(** *** The store is consistent in every reachable world *)

Lemma consistent_empty : consistent emptyWorld.
Proof. split; intros key x H; simpl in H; rewrite lookup_empty in H; discriminate. Qed.

(** Saving a settled game state together with its player under one key. *)
Lemma consistent_commit w c ch b k p gs' :
  consistent w ->
  Player.id p = k ->
  Player.id (GameState.player gs') = k ->
  Player.coins p = Player.coins (GameState.player gs') ->
  settled gs' ->
  consistent (mkWorld c ch (<[k := p]> (players w)) b (<[k := gs']> (gameStates w))).
Proof.
  intros [Hp Hg] Hid Hid' Hcoins Hs. split; simpl.
  - intros key player. rewrite lookup_insert_Some. intros [[<- <-]|[_ H]]; [|eauto].
    split; [assumption|]. destruct Hs as (_ & ? & _). lia.
  - intros key gs. rewrite lookup_insert_Some. intros [[<- <-]|[Hne H]].
    + split; [assumption|]. split; [assumption|].
      exists p. rewrite lookup_insert_eq. auto.
    + destruct (Hg _ _ H) as (? & ? & p0 & ? & ?). split; [assumption|].
      split; [assumption|]. exists p0. rewrite lookup_insert_ne by assumption. auto.
Qed.

(** Saving a settled game state alone, when the player record on file
    already has its balance (the water handler). *)
Lemma consistent_commit_state w c ch b k p gs' :
  consistent w ->
  players w !! k = Some p ->
  Player.id (GameState.player gs') = k ->
  Player.coins p = Player.coins (GameState.player gs') ->
  settled gs' ->
  consistent (mkWorld c ch (players w) b (<[k := gs']> (gameStates w))).
Proof.
  intros [Hp Hg] Hlook Hid Hcoins Hs. split; simpl; [exact Hp|].
  intros key gs. rewrite lookup_insert_Some. intros [[<- <-]|[Hne H]]; [|eauto].
  split; [assumption|]. split; [assumption|]. eauto.
Qed.

(** Claimed plots, chat and biome records play no part. *)
Lemma consistent_frame w c ch b :
  consistent w -> consistent (mkWorld c ch (players w) b (gameStates w)).
Proof. intros [Hp Hg]. split; assumption. Qed.

(** What consistency says about a game state found in the store. *)
Ltac use_consistency H Hgs :=
  let Hid := fresh "Hid" in
  let Hsync := fresh "Hsync" in
  let Hpos := fresh "Hpos" in
  let Hunripe := fresh "Hunripe" in
  let p := fresh "p" in
  let Hp := fresh "Hp" in
  let Hpc := fresh "Hpc" in
  destruct (proj2 H _ _ Hgs) as (Hid & (Hsync & Hpos & Hunripe) & p & Hp & Hpc).


Lemma init_consistent w username now freshLandId :
  consistent w -> consistent (fst (init w username now freshLandId)).
Proof.
  intros Hw. unfold init.
  set (start := match biomes w !! "massive_world" with
                | Some biome => (biome, w)
                | None => (getDefaultBiome, saveBiome w getDefaultBiome)
                end).
  assert (Hstart : consistent (snd start)
                   /\ players (snd start) = players w
                   /\ gameStates (snd start) = gameStates w).
  { unfold start. destruct (biomes w !! "massive_world"); simpl; [auto|].
    split; [now apply consistent_frame | auto]. }
  destruct start as [biome w0]. simpl in Hstart.
  destruct Hstart as (Hw0 & Hplayers & Hstates).
  destruct (players w0 !! username) as [player|] eqn:Hplayer.
  - destruct (proj1 Hw0 _ _ Hplayer) as [Hid Hpos].
    cbn [savePlayer gameStates Player.id Player.with_lastActive].
    destruct (gameStates w0 !! Player.id player) as [gs|] eqn:Hgs;
      unfold saveGameState, savePlayer; simpl.
    + destruct (proj2 Hw0 _ _ Hgs) as (_ & (Hsync & _ & Hunripe) & p & Hp & Hpc).
      rewrite Hid in Hp. rewrite Hplayer in Hp. injection Hp as <-.
      eapply consistent_commit; try reflexivity; [assumption|].
      repeat split; simpl; try assumption.
      unfold coins_synced in *. simpl. congruence.
    + eapply consistent_commit; try reflexivity; [assumption|].
      repeat split; simpl; [assumption | constructor].
  - destruct (allocateStartingLand _ _ _ _ _) as [err|[[claimed' player'] biome']] eqn:Halloc;
      simpl; [assumption|].
    apply allocateStartingLand_player in Halloc as [Hid Hcoins]. simpl in Hid, Hcoins.
    rewrite Hid.
    destruct (gameStates w0 !! username) as [gs|] eqn:Hgs.
    + destruct (proj2 Hw0 _ _ Hgs) as (_ & _ & p & Hp & _). congruence.
    + unfold saveGameState, saveBiome, savePlayer; simpl. rewrite Hid.
      eapply consistent_commit; try reflexivity; try assumption.
      repeat split; simpl; [lia | constructor].
Qed.

(** Every action keeps the store consistent. In the harvest case the tree
    that was found is at stage 0, so the paying branch is never entered. *)
Lemma step_consistent w a now : consistent w -> consistent (fst (step w a now)).
Proof.
  intros Hw. destruct a; cbn [step].
  - now apply init_consistent.
  - unfold plantTree. destruct (gameStates w !! playerId) as [gs|] eqn:Hgs; [|assumption].
    use_consistency Hw Hgs.
    break_handler; try assumption; unfold saveBiome, savePlayer; simpl.
    eapply consistent_commit; try reflexivity; [assumption|].
    repeat split; simpl; try assumption.
    rewrite Forall_app. split; [assumption|]. repeat constructor.
  - unfold buyLand. destruct (gameStates w !! playerId) as [gs|] eqn:Hgs; [|assumption].
    use_consistency Hw Hgs.
    break_handler; try assumption; unfold saveBiome, savePlayer; simpl.
    eapply consistent_commit; try reflexivity; [assumption|].
    repeat split; simpl; try assumption. unfold LAND_PLOT_COST in *. lia.
  - unfold movePlayer. destruct (gameStates w !! playerId) as [gs|] eqn:Hgs; [|assumption].
    use_consistency Hw Hgs.
    break_handler; try assumption; unfold saveBiome, savePlayer; simpl;
      (eapply consistent_commit; try reflexivity; [assumption|];
       repeat split; simpl; assumption).
  - unfold waterTree. destruct (gameStates w !! playerId) as [gs|] eqn:Hgs; [|assumption].
    use_consistency Hw Hgs.
    break_handler; try assumption; unfold saveBiome, savePlayer; simpl.
    eapply (consistent_commit_state _ _ _ _ _ p); [assumption | exact Hp | reflexivity | exact Hpc |].
    repeat split; simpl; try assumption.
    match goal with H : findIndexed _ _ = Some _ |- _ => apply findIndexed_Some in H as [Hl _] end.
    apply Forall_insert; [assumption|]. simpl.
    eapply (Forall_lookup_1 _ _ _ _ Hunripe Hl).
  - unfold harvestTree. destruct (gameStates w !! playerId) as [gs|] eqn:Hgs; [|assumption].
    use_consistency Hw Hgs.
    break_handler; try assumption; unfold saveBiome, savePlayer; simpl.
    match goal with H : findIndexed _ _ = Some _ |- _ => apply findIndexed_Some in H as [Hl _] end.
    pose proof (Forall_lookup_1 _ _ _ _ Hunripe Hl) as Hzero. simpl in Hzero.
    match goal with H : (_ <? 5) = false |- _ => rewrite Hzero in H; discriminate H end.
  - unfold buySeeds. destruct (gameStates w !! playerId) as [gs|] eqn:Hgs; [|assumption].
    use_consistency Hw Hgs.
    break_handler; try assumption; unfold saveBiome, savePlayer; simpl.
    eapply consistent_commit; try reflexivity; [assumption|].
    repeat split; simpl; try assumption. unfold SEED_COST in *. lia.
Qed.

Lemma reachable_consistent w : reachable w -> consistent w.
Proof.
  induction 1; [apply consistent_empty | now apply step_consistent].
Qed.

(** From an empty store on, wallet and player agree in every stored game
    state, whatever the sequence of actions. *)
Corollary reachable_coins_synced w key gameState :
  reachable w -> gameStates w !! key = Some gameState -> coins_synced gameState.
Proof.
  intros Hw Hgs. apply reachable_consistent in Hw.
  destruct (proj2 Hw _ _ Hgs) as (_ & (Hsync & _) & _). exact Hsync.
Qed.

(** No handler ever writes a growth stage other than the 0 of planting, so
    in a reachable world no harvest request is ever honoured. *)
Corollary reachable_never_harvests w playerId treeId now roll :
  reachable w -> committed (snd (harvestTree w playerId treeId now roll)) = false.
Proof.
  intros Hw. apply reachable_consistent in Hw. unfold harvestTree.
  destruct (gameStates w !! playerId) as [gs|] eqn:Hgs; [|reflexivity].
  destruct (proj2 Hw _ _ Hgs) as (_ & (_ & _ & Hunripe) & _).
  destruct (findIndexed _ _) as [[i tree]|] eqn:Hfind; [|reflexivity].
  apply findIndexed_Some in Hfind as [Hl _].
  pose proof (Forall_lookup_1 _ _ _ _ Hunripe Hl) as Hzero. simpl in Hzero.
  rewrite Hzero. reflexivity.
Qed.

(** *** Buying seeds *)



(** *** Harvest *)

(** The gate of the harvest handler is the stored [growthStage] field:
    below 5 the request is answered with zero rewards and nothing is
    written. *)
Lemma harvestTree_rejected w playerId treeId now roll gameState treeIndex tree :
  gameStates w !! playerId = Some gameState ->
  findIndexed (fun t => String.eqb (Tree.id t) treeId) (GameState.trees gameState)
  = Some (treeIndex, tree) ->
  Tree.growthStage tree < 5 ->
  harvestTree w playerId treeId now roll
  = (w, RespHarvestTree gameState (0, 0, 0) None).
Proof.
  intros Hgs Hfind Hstage. unfold harvestTree. rewrite Hgs, Hfind.
  destruct (Z.ltb_spec (Tree.growthStage tree) 5); [reflexivity | lia].
Qed.

(** From 5 on the tree is removed and the rewards are paid, whatever the
    timestamps say. *)
Lemma harvestTree_accepted w playerId treeId now roll gameState treeIndex tree :
  gameStates w !! playerId = Some gameState ->
  findIndexed (fun t => String.eqb (Tree.id t) treeId) (GameState.trees gameState)
  = Some (treeIndex, tree) ->
  5 <= Tree.growthStage tree ->
  exists w' gameState' rewards unlocked,
    harvestTree w playerId treeId now roll
    = (w', RespHarvestTree gameState' rewards (Some unlocked))
    /\ GameState.trees gameState' = delete treeIndex (GameState.trees gameState)
    /\ Player.coins (GameState.player gameState')
       = Player.coins (GameState.player gameState) + fst (fst rewards).
Proof.
  intros Hgs Hfind Hstage. unfold harvestTree. rewrite Hgs, Hfind.
  destruct (Z.ltb_spec (Tree.growthStage tree) 5); [lia|].
  eexists _, _, _, _. split; [reflexivity|]. split; reflexivity.
Qed.


(** *** Land *)

(** The buy-land handler never touches the claimed set. *)
Lemma buyLand_keeps_claimedPlots w playerId x z now freshLandId :
  claimedPlots (fst (buyLand w playerId x z now freshLandId)) = claimedPlots w.
Proof.
  unfold buyLand.
  repeat (case_match; try reflexivity).
Qed.

(** A cell that [claimPlot] hands out was free, and is refused from then on. *)
Lemma claimPlot_once claimed gridX gridZ claimed' :
  claimPlot claimed gridX gridZ = (true, claimed') ->
  (plotKey gridX gridZ ∉ claimed)
  /\ claimed' = claimed ∪ {[plotKey gridX gridZ]}
  /\ claimPlot claimed' gridX gridZ = (false, claimed').
Proof.
  unfold claimPlot at 1. case_bool_decide as Hin; [discriminate|].
  case_match; [discriminate|]. intros [= <-].
  split; [assumption|]. split; [reflexivity|].
  unfold claimPlot. rewrite bool_decide_eq_true_2; [reflexivity | set_solver].
Qed.

(** C2 (the handlers against the claim). Three committed actions: alice
    joins and is given cell (0,0); she buys land at the centre of cell
    (0,1), which the claimed set never learns of; bob joins and the
    allocator hands him cell (0,1). The shared biome record then holds two
    plots of different owners on the same cell, with the same footprint. *)
Theorem buy_land_bypasses_allocator :
  outcomes emptyWorld double_claim = [true; true; true]
  /\ elements (claimedPlots (run emptyWorld (take 2 double_claim))) = ["0,0"]
  /\ plot_cells (run emptyWorld double_claim)
     = [ ("land_1", "alice", (0, 0));
         ("land_2", "alice", (0, 1));
         ("land_3", "bob", (0, 1)) ]
  /\ biome_overlaps (run emptyWorld double_claim) = [("land_2", "land_3")].
Proof. repeat split; vm_compute; reflexivity. Qed.

(** Within one player's own land the geometric test of the handler lets a
    second plot through ten units away along z, although plots are twenty
    units deep: the two footprints overlap. *)
Example buy_land_overlaps_own_plot :
  let script := [ (Init "alice" "land_1", 1000);
                  (BuyLand "alice" (-995)%Q (-1980)%Q "land_2", 2000) ] in
  outcomes emptyWorld script = [true; true]
  /\ biome_overlaps (run emptyWorld script) = [("land_1", "land_2")].
Proof. split; vm_compute; reflexivity. Qed.

(** *** Chat endpoint *)

(** The endpoint never asks for zero messages: a limit of 0, like a
    missing one, becomes the default 20. *)
Lemma chatMessagesEndpoint_zero w :
  chatMessagesEndpoint w (Some 0) = Chat.getRecentChatMessages (chatMessages w) 20
  /\ chatMessagesEndpoint w None = Chat.getRecentChatMessages (chatMessages w) 20.
Proof. split; reflexivity. Qed.

End CoordinatorFacts.

(** ** Keys, footprints and starting land *)

Module AllocationFacts.
Import Plots Coordinator Upkeep PlotFacts.



Lemma pretty_N_go_comma_free (x : N) (s : string) :
  comma_free s -> comma_free (pretty_N_go x s).
Proof.
  revert s. induction (N.lt_wf_0 x) as [x _ IH]; intros s Hs.
  assert (x = 0 \/ 0 < x)%N as [->|Hpos] by lia.
  - now rewrite pretty_N_go_0.
  - rewrite pretty_N_go_step by done. apply IH.
    + now apply N.div_lt.
    + split; [|exact Hs]. unfold pretty_N_char. repeat case_match; discriminate.
Qed.

Lemma pretty_Z_comma_free (x : Z) : comma_free (pretty x).
Proof.
  destruct x as [|p|p]; unfold pretty, pretty_Z, pretty, pretty_positive, pretty, pretty_N.
  - simpl. split; [discriminate | exact I].
  - case_decide; [discriminate|]. now apply pretty_N_go_comma_free.
  - case_decide; [discriminate|]. simpl. split; [discriminate|].
    now apply pretty_N_go_comma_free.
Qed.

Lemma comma_split (a a' b b' : string) :
  comma_free a -> comma_free a' ->
  a +:+ "," +:+ b = a' +:+ "," +:+ b' -> a = a' /\ b = b'.
Proof.
  revert a'. induction a as [|c a IH]; intros [|c' a'] Ha Ha'; simpl.
  - intros H. injection H as Hb. subst. done.
  - intros H. injection H as Hc _. destruct Ha' as [Hc' _]. congruence.
  - intros H. injection H as Hc _. destruct Ha as [Hc' _]. congruence.
  - intros H. injection H as Hc Hrest. destruct Ha as [_ Ha], Ha' as [_ Ha'].
    destruct (IH _ Ha Ha' Hrest) as [Ha'' Hb]. subst. done.
Qed.

Lemma plotKey_eq (x z x' z' : Z) :
  plotKey x z = plotKey x' z' -> x = x' /\ z = z'.
Proof.
  unfold plotKey. intros H.
  apply comma_split in H as [Hx Hz]; try apply pretty_Z_comma_free.
  split; now apply (inj pretty).
Qed.

(** X1. The key under which a cell is recorded in [claimedPlots] identifies
    the cell: two cells have the same key only if they are the same cell. *)
Theorem plotKey_identifies_cell (x z x' z' : Z) :
  plotKey x z = plotKey x' z' <-> (x, z) = (x', z').
Proof.
  split.
  - intros H. apply plotKey_eq in H as [-> ->]. reflexivity.
  - intros [= -> ->]. reflexivity.
Qed.


(** X2. [claimPlot] succeeds exactly when the cell's key is not yet claimed
    and fewer than [MAX_PLAYERS] cells are claimed. On success the set
    grows by exactly that one key and no other cell changes status; on
    failure the set is returned as it was; the cap, once respected, stays
    respected. *)
Theorem claimPlot_exact (claimed : gset string) (gridX gridZ : Z) :
  let ok := fst (claimPlot claimed gridX gridZ) in
  let claimed' := snd (claimPlot claimed gridX gridZ) in
  (ok = true <->
   (plotKey gridX gridZ ∉ claimed) /\ Z.of_nat (size claimed) < MAX_PLAYERS)
  /\ (ok = true ->
      size claimed' = S (size claimed)
      /\ plotKey gridX gridZ ∈ claimed'
      /\ forall x z, (x, z) <> (gridX, gridZ) ->
           (plotKey x z ∈ claimed' <-> plotKey x z ∈ claimed))
  /\ (ok = false -> claimed' = claimed)
  /\ (Z.of_nat (size claimed) <= MAX_PLAYERS ->
      Z.of_nat (size claimed') <= MAX_PLAYERS).
Proof.
  unfold claimPlot. case_bool_decide as Hin; simpl.
  - repeat split; try discriminate; try tauto.
  - destruct (Z.leb_spec MAX_PLAYERS (Z.of_nat (size claimed))) as [Hfull|Hroom]; simpl.
    + repeat split; try discriminate; try tauto. lia.
    + assert (Hsize : size (claimed ∪ {[plotKey gridX gridZ]}) = S (size claimed)).
      { rewrite size_union by set_solver. rewrite size_singleton. lia. }
      split; [tauto|]. split; [|split; [discriminate|]].
      * intros _. split; [exact Hsize|]. split; [set_solver|].
        intros x z Hne. rewrite elem_of_union, elem_of_singleton.
        split; [|tauto]. intros [H|H]; [exact H|].
        apply plotKey_eq in H as [-> ->]. contradiction.
      * intros _. rewrite Hsize. lia.
Qed.

Lemma coords_int (gridX gridZ : Z) :
  let c := getPlotWorldCoordinates gridX gridZ in
  (startX c == inject_Z (10 * gridX - 1000))%Q
  /\ (endX c == inject_Z (10 * gridX - 990))%Q
  /\ (centerX c == inject_Z (10 * gridX - 995))%Q
  /\ (startZ c == inject_Z (20 * gridZ - 2000))%Q
  /\ (endZ c == inject_Z (20 * gridZ - 1980))%Q
  /\ (centerZ c == inject_Z (20 * gridZ - 1990))%Q.
Proof.
  unfold getPlotWorldCoordinates; cbn [startX endX centerX startZ endZ centerZ].
  unfold PLOT_WIDTH, PLOT_HEIGHT, WORLD_WIDTH, WORLD_HEIGHT.
  repeat split; unfold Qeq, Qplus, Qminus, Qopp, Qdiv, Qmult, Qinv, inject_Z; simpl; lia.
Qed.

(** X3. The rectangles of [getPlotWorldCoordinates] tile the world: every
    cell is [PLOT_WIDTH] by [PLOT_HEIGHT] with its centre in the middle, a
    cell of the grid lies inside the world bounds, and the rectangles of two
    different cells share no interior point. *)
Theorem plot_footprints_tile (gridX gridZ : Z) :
  let c := getPlotWorldCoordinates gridX gridZ in
  (endX c - startX c == inject_Z PLOT_WIDTH)%Q
  /\ (endZ c - startZ c == inject_Z PLOT_HEIGHT)%Q
  /\ (centerX c - startX c == endX c - centerX c)%Q
  /\ (centerZ c - startZ c == endZ c - centerZ c)%Q
  /\ (in_grid gridX gridZ ->
      (- inject_Z WORLD_WIDTH / 2 <= startX c)%Q
      /\ (endX c <= inject_Z WORLD_WIDTH / 2)%Q
      /\ (- inject_Z WORLD_HEIGHT / 2 <= startZ c)%Q
      /\ (endZ c <= inject_Z WORLD_HEIGHT / 2)%Q)
  /\ (forall gridX' gridZ',
        (gridX', gridZ') <> (gridX, gridZ) ->
        let c' := getPlotWorldCoordinates gridX' gridZ' in
        (endX c <= startX c')%Q \/ (endX c' <= startX c)%Q
        \/ (endZ c <= startZ c')%Q \/ (endZ c' <= startZ c)%Q).
Proof.
  intros c.
  destruct (coords_int gridX gridZ) as (Hsx & Hex & Hcx & Hsz & Hez & Hcz).
  fold c in Hsx, Hex, Hcx, Hsz, Hez, Hcz.
  unfold in_grid. change GRID_WIDTH with 200. change GRID_HEIGHT with 200.
  unfold PLOT_WIDTH, PLOT_HEIGHT, WORLD_WIDTH, WORLD_HEIGHT.
  split; [rewrite Hsx, Hex; unfold Qeq; simpl; lia|].
  split; [rewrite Hsz, Hez; unfold Qeq; simpl; lia|].
  split; [rewrite Hsx, Hex, Hcx; unfold Qeq; simpl; lia|].
  split; [rewrite Hsz, Hez, Hcz; unfold Qeq; simpl; lia|].
  split.
  - intros [[? ?] [? ?]]. rewrite Hsx, Hex, Hsz, Hez.
    repeat split; unfold Qle; cbn; lia.
  - intros gridX' gridZ' Hne.
    destruct (coords_int gridX' gridZ') as (Hsx' & Hex' & _ & Hsz' & Hez' & _).
    cbv zeta in Hsx', Hex', Hsz', Hez'.
    rewrite Hsx, Hex, Hsz, Hez, Hsx', Hex', Hsz', Hez'.
    rewrite <- !Zle_Qle.
    assert (gridX <> gridX' \/ gridZ <> gridZ') as [H|H]
      by (destruct (decide (gridX = gridX')); [right; congruence | left; assumption]);
      lia.
Qed.

(** The cells of the first column carry [GRID_HEIGHT] different keys. *)
Lemma column_keys_distinct :
  NoDup (map (fun z => plotKey 0 (Z.of_nat z)) (seq 0 (Z.to_nat GRID_HEIGHT))).
Proof.
  apply NoDup_fmap_2; [|apply NoDup_seq].
  intros i j H. apply plotKey_eq in H as [_ H]. lia.
Qed.

(** Below the cap there is always a free cell: the grid has more cells
    than the cap has room for. *)
Lemma free_cell_below_cap (claimed : gset string) :
  Z.of_nat (size claimed) < MAX_PLAYERS -> findAvailablePlot claimed <> None.
Proof.
  intros Hroom Hnone. rewrite findAvailablePlot_None in Hnone.
  assert (Hsub : first_column ⊆ claimed).
  { unfold first_column. intros key Hkey.
    rewrite elem_of_list_to_set, list_elem_of_In, in_map_iff in Hkey.
    destruct Hkey as (i & <- & Hi). apply in_seq in Hi.
    apply Hnone. unfold in_grid.
    change GRID_WIDTH with 200. change GRID_HEIGHT with 200 in *.
    change (Z.to_nat 200) with 200%nat in Hi. lia. }
  apply subseteq_size in Hsub.
  unfold first_column in Hsub.
  rewrite size_list_to_set in Hsub by apply column_keys_distinct.
  rewrite length_map, length_seq in Hsub.
  change (Z.to_nat GRID_HEIGHT) with 200%nat in Hsub.
  unfold MAX_PLAYERS in Hroom. lia.
Qed.

(** At the cap [allocateStartingLand] throws. *)
Lemma allocateStartingLand_full claimed player biome now freshLandId :
  MAX_PLAYERS <= Z.of_nat (size claimed) ->
  exists err, allocateStartingLand claimed player biome now freshLandId = inl err
    /\ (err = "Failed to claim plot"
        \/ err = "No available plots in the world"
           /\ forall x z, in_grid x z -> plotKey x z ∈ claimed).
Proof.
  intros Hfull. unfold allocateStartingLand.
  destruct (findAvailablePlot claimed) as [[gridX gridZ]|] eqn:Hfind.
  - rewrite claimPlot_at_cap by assumption. eauto.
  - eexists. split; [reflexivity|]. right. split; [reflexivity|].
    now apply findAvailablePlot_None.
Qed.

(** Below the cap it hands out the first free cell. *)
Lemma allocateStartingLand_room claimed player biome now freshLandId :
  Z.of_nat (size claimed) < MAX_PLAYERS ->
  exists gridX gridZ,
    findAvailablePlot claimed = Some (gridX, gridZ)
    /\ allocateStartingLand claimed player biome now freshLandId
       = inr (claimed ∪ {[plotKey gridX gridZ]},
              Player.with_position
                (Player.with_landPlots player (Player.landPlots player ++ [freshLandId]))
                (mkPosition (centerX (getPlotWorldCoordinates gridX gridZ)) 0%Q
                            (centerZ (getPlotWorldCoordinates gridX gridZ))),
              Biome.with_landPlots biome
                (Biome.landPlots biome
                 ++ [LandPlot.mk freshLandId
                       (centerX (getPlotWorldCoordinates gridX gridZ))
                       (centerZ (getPlotWorldCoordinates gridX gridZ))
                       (Player.id player) (Biome.type biome) [] now 0])).
Proof.
  intros Hroom. unfold allocateStartingLand.
  destruct (findAvailablePlot claimed) as [[gridX gridZ]|] eqn:Hfind;
    [|now destruct (free_cell_below_cap claimed)].
  pose proof (findAvailablePlot_Some _ _ Hfind) as (_ & Hfree & _). simpl in Hfree.
  exists gridX, gridZ. split; [reflexivity|].
  unfold claimPlot. rewrite bool_decide_eq_false_2 by exact Hfree.
  destruct (Z.leb_spec MAX_PLAYERS (Z.of_nat (size claimed))); [lia|]. reflexivity.
Qed.


Lemma allocated_cell claimed player biome now freshLandId claimed' player' biome' :
  allocateStartingLand claimed player biome now freshLandId
  = inr (claimed', player', biome') ->
  exists gridX gridZ,
    (plotKey gridX gridZ ∉ claimed)
    /\ plotKey gridX gridZ ∈ claimed'
    /\ last (Biome.landPlots biome')
       = Some (LandPlot.mk freshLandId
                 (centerX (getPlotWorldCoordinates gridX gridZ))
                 (centerZ (getPlotWorldCoordinates gridX gridZ))
                 (Player.id player) (Biome.type biome) [] now 0).
Proof.
  unfold allocateStartingLand.
  destruct (findAvailablePlot claimed) as [[gridX gridZ]|] eqn:Hfind; [|discriminate].
  pose proof (findAvailablePlot_Some _ _ Hfind) as (_ & Hfree & _). simpl in Hfree.
  destruct (claimPlot claimed gridX gridZ) as [[|] claimed''] eqn:Hclaim; [|discriminate].
  intros [= <- <- <-]. exists gridX, gridZ.
  apply CoordinatorFacts.claimPlot_once in Hclaim as (_ & -> & _).
  split; [exact Hfree|]. split; [set_solver|]. simpl. apply last_snoc.
Qed.

(** Plots laid out on two different cells do not overlap. *)
Lemma cells_apart (x1 z1 x2 z2 : Z) (a b : LandPlot.t) :
  (x1, z1) <> (x2, z2) ->
  LandPlot.x a = centerX (getPlotWorldCoordinates x1 z1) ->
  LandPlot.z a = centerZ (getPlotWorldCoordinates x1 z1) ->
  LandPlot.x b = centerX (getPlotWorldCoordinates x2 z2) ->
  LandPlot.z b = centerZ (getPlotWorldCoordinates x2 z2) ->
  footprints_overlap a b = false.
Proof.
  intros Hne Hax Haz Hbx Hbz.
  unfold footprints_overlap, Qlt_bool. rewrite Hax, Haz, Hbx, Hbz.
  rewrite andb_false_iff, !negb_false_iff, !Qle_bool_iff.
  unfold getPlotWorldCoordinates; cbn [centerX centerZ].
  unfold PLOT_WIDTH, PLOT_HEIGHT, WORLD_WIDTH, WORLD_HEIGHT.
  assert (x1 <> x2 \/ z1 <> z2) as [H|H]
    by (destruct (decide (x1 = x2)); [right; congruence | left; assumption]).
  - left. unfold Qle, Qabs, Qminus, Qplus, Qopp, Qdiv, Qmult, Qinv, inject_Z; cbn. lia.
  - right. unfold Qle, Qabs, Qminus, Qplus, Qopp, Qdiv, Qmult, Qinv, inject_Z; cbn. lia.
Qed.

(** X5. Two starting plots never overlap: if a second allocation runs on a
    claimed set that still contains what the first one claimed, the plots
    the two allocations append have disjoint footprints. *)
Theorem starting_plots_never_overlap
    claimed1 player1 biome1 now1 id1 claimed1' player1' biome1'
    claimed2 player2 biome2 now2 id2 claimed2' player2' biome2' :
  allocateStartingLand claimed1 player1 biome1 now1 id1
  = inr (claimed1', player1', biome1') ->
  claimed1' ⊆ claimed2 ->
  allocateStartingLand claimed2 player2 biome2 now2 id2
  = inr (claimed2', player2', biome2') ->
  exists plot1 plot2,
    last (Biome.landPlots biome1') = Some plot1
    /\ last (Biome.landPlots biome2') = Some plot2
    /\ footprints_overlap plot1 plot2 = false.
Proof.
  intros H1 Hsub H2.
  apply allocated_cell in H1 as (x1 & z1 & _ & Hin1 & Hlast1).
  apply allocated_cell in H2 as (x2 & z2 & Hfree2 & _ & Hlast2).
  eexists _, _. split; [exact Hlast1|]. split; [exact Hlast2|].
  apply (cells_apart x1 z1 x2 z2); try reflexivity.
  intros [= -> ->]. apply Hfree2, Hsub, Hin1.
Qed.

Lemma starting_plots_never_overlap_witness :
  exists plot1 plot2,
    LandPlot.id plot1 = "land_1" /\ LandPlot.id plot2 = "land_2"
    /\ footprints_overlap plot1 plot2 = false.
Proof.
  eassert (H1 : allocateStartingLand ∅ (getDefaultPlayer "alice" 1000)
                  getDefaultBiome 1000 "land_1" = inr (∅ ∪ {[plotKey 0 0]}, _, _))
    by (vm_compute; reflexivity).
  eassert (H2 : allocateStartingLand (∅ ∪ {[plotKey 0 0]}) (getDefaultPlayer "bob" 2000)
                  getDefaultBiome 2000 "land_2" = inr (_, _, _))
    by (vm_compute; reflexivity).
  destruct (starting_plots_never_overlap _ _ _ _ _ _ _ _ _ _ _ _ _ _ _ _ H1
              ltac:(set_solver) H2)
    as (plot1 & plot2 & Hl1 & Hl2 & Hapart).
  exists plot1, plot2.
  vm_compute in Hl1. injection Hl1 as <-.
  vm_compute in Hl2. injection Hl2 as <-.
  split; [reflexivity|]. split; [reflexivity|]. vm_compute. reflexivity.
Defined.


End AllocationFacts.

(** ** The handlers, one by one *)

Module HandlerFacts.
Import Plots Proximity Achievements Coordinator Endpoints Upkeep PlotFacts CoordinatorFacts AllocationFacts.

(** X6. GET /api/init for an unknown player when [MAX_PLAYERS] cells are
    claimed answers 400 "Initialization failed: ..." and registers
    nothing: no player record, no game state, no claimed cell (and the biome
    store is untouched when the shared biome already exists). *)
Theorem init_refused_when_full (w : World) (username : string) (now : Z)
    (freshLandId : string) :
  players w !! username = None ->
  MAX_PLAYERS <= Z.of_nat (size (claimedPlots w)) ->
  exists err,
    snd (init w username now freshLandId)
    = RespError 400 ("Initialization failed: " +:+ err)
    /\ players (fst (init w username now freshLandId)) = players w
    /\ gameStates (fst (init w username now freshLandId)) = gameStates w
    /\ claimedPlots (fst (init w username now freshLandId)) = claimedPlots w
    /\ (forall biome, biomes w !! "massive_world" = Some biome ->
          biomes (fst (init w username now freshLandId)) = biomes w).
Proof.
  intros Hnew Hfull. unfold init.
  destruct (biomes w !! "massive_world") as [biome|] eqn:Hbiome; simpl; rewrite Hnew.
  - destruct (allocateStartingLand_full (claimedPlots w)
                (getDefaultPlayer username now) biome now freshLandId Hfull)
      as (err & -> & _).
    exists err. simpl. auto.
  - destruct (allocateStartingLand_full (claimedPlots w)
                (getDefaultPlayer username now) getDefaultBiome now freshLandId Hfull)
      as (err & -> & _).
    exists err. simpl. repeat split. intros biome [=].
Qed.

Lemma init_refused_when_full_witness :
  exists err,
    snd (init full_house "alice" 1000 "land_1")
    = RespError 400 ("Initialization failed: " +:+ err).
Proof.
  destruct (init_refused_when_full full_house "alice" 1000 "land_1") as (err & Herr & _).
  - vm_compute. reflexivity.
  - vm_compute. discriminate.
  - exists err. exact Herr.
Defined.


(** X7. GET /api/init for an unknown player below the cap: the player gets
    the first free cell, level 1, 200 coins, the wallet 5 seeds / 10 water /
    0 fertilizer / 200 coins, no trees, one plot (price 0) centred on the
    cell; player record, game state and biome are all saved, the player is
    the last entry of the roster, and the neighbours returned never include
    the player. *)
Theorem init_new_player (w : World) (username : string) (now : Z)
    (freshLandId : string) :
  players w !! username = None ->
  gameStates w !! username = None ->
  Z.of_nat (size (claimedPlots w)) < MAX_PLAYERS ->
  exists w' gameState nearby gridX gridZ,
    init w username now freshLandId = (w', RespInit gameState username nearby)
    /\ findAvailablePlot (claimedPlots w) = Some (gridX, gridZ)
    /\ claimedPlots w' = claimedPlots w ∪ {[plotKey gridX gridZ]}
    /\ players w' !! username = Some (GameState.player gameState)
    /\ gameStates w' !! username = Some gameState
    /\ biomes w' !! Biome.id (GameState.currentBiome gameState)
       = Some (GameState.currentBiome gameState)
    /\ GameState.player gameState
       = Player.mk username username 1 0 200 [] [freshLandId]
           (mkPosition (centerX (getPlotWorldCoordinates gridX gridZ)) 0%Q
                       (centerZ (getPlotWorldCoordinates gridX gridZ)))
           now
    /\ GameState.resources gameState = Resources.mk 5 10 0 200
    /\ GameState.trees gameState = []
    /\ last (Biome.players (GameState.currentBiome gameState))
       = Some (GameState.player gameState)
    /\ last (Biome.landPlots (GameState.currentBiome gameState))
       = Some (LandPlot.mk freshLandId
                 (centerX (getPlotWorldCoordinates gridX gridZ))
                 (centerZ (getPlotWorldCoordinates gridX gridZ))
                 username (Biome.type (GameState.currentBiome gameState)) [] now 0)
    /\ Forall (fun p => Player.id p <> username) nearby.
Proof.
  intros Hnew Hnogs Hroom. unfold init.
  set (start := match biomes w !! "massive_world" with
                | Some biome => (biome, w)
                | None => (getDefaultBiome, saveBiome w getDefaultBiome)
                end).
  assert (Hstart : players (snd start) = players w
                   /\ gameStates (snd start) = gameStates w
                   /\ claimedPlots (snd start) = claimedPlots w).
  { unfold start. destruct (biomes w !! "massive_world"); simpl; auto. }
  destruct start as [biome w0]. simpl in Hstart. destruct Hstart as (Hp & Hg & Hc).
  rewrite Hp, Hnew, Hc.
  destruct (allocateStartingLand_room (claimedPlots w) (getDefaultPlayer username now)
              biome now freshLandId Hroom) as (gridX & gridZ & Hfind & ->).
  cbn [savePlayer saveBiome with_claimedPlots gameStates Player.id Player.with_position
       Player.with_landPlots getDefaultPlayer].
  rewrite Hg, Hnogs.
  eexists _, _, _, gridX, gridZ. split; [reflexivity|].
  split; [exact Hfind|]. cbn.
  split; [reflexivity|]. split; [apply lookup_insert_eq|].
  split; [apply lookup_insert_eq|]. split; [apply lookup_insert_eq|].
  split; [reflexivity|]. split; [reflexivity|]. split; [reflexivity|].
  split; [apply last_snoc|]. split; [apply last_snoc|].
  apply Forall_forall. intros p Hin.
  apply list_elem_of_In, filter_In in Hin as [_ Hin]. cbn in Hin.
  destruct (String.eqb_spec (Player.id p) username); [discriminate | assumption].
Qed.

Lemma init_new_player_witness :
  exists w' gameState nearby,
    init emptyWorld "alice" 1000 "land_1" = (w', RespInit gameState "alice" nearby)
    /\ GameState.resources gameState = Resources.mk 5 10 0 200
    /\ findAvailablePlot (claimedPlots emptyWorld) = Some (0, 0).
Proof.
  destruct (init_new_player emptyWorld "alice" 1000 "land_1")
    as (w' & gameState & nearby & gridX & gridZ & Hinit & Hfind & _ & _ & _ & _ & _
        & Hres & _).
  - vm_compute. reflexivity.
  - vm_compute. reflexivity.
  - vm_compute. reflexivity.
  - exists w', gameState, nearby. split; [exact Hinit|]. split; [exact Hres|].
    vm_compute. reflexivity.
Defined.


(** X8. GET /api/init for a known player allocates nothing: the claimed
    set and the player's plots stay, the stored player record (with
    [lastActive] refreshed) replaces the player of the game state, trees and
    wallet of a stored game state are kept as they are, and a missing game
    state is rebuilt with the default wallet and the player's coins. *)
Theorem init_returning_player (w : World) (username : string) (now : Z)
    (freshLandId : string) (player : Player.t) :
  players w !! username = Some player ->
  exists w' gameState nearby,
    init w username now freshLandId = (w', RespInit gameState username nearby)
    /\ claimedPlots w' = claimedPlots w
    /\ GameState.player gameState = Player.with_lastActive player now
    /\ Player.landPlots (GameState.player gameState) = Player.landPlots player
    /\ players w' = <[Player.id player := Player.with_lastActive player now]> (players w)
    /\ gameStates w' !! Player.id player = Some gameState
    /\ (forall biome, biomes w !! "massive_world" = Some biome ->
          biomes w' = biomes w /\ GameState.currentBiome gameState = biome)
    /\ (forall stored, gameStates w !! Player.id player = Some stored ->
          GameState.trees gameState = GameState.trees stored
          /\ GameState.resources gameState = GameState.resources stored)
    /\ (gameStates w !! Player.id player = None ->
          GameState.trees gameState = []
          /\ GameState.resources gameState = Resources.mk 5 10 0 (Player.coins player)).
Proof.
  intros Hplayer. unfold init.
  set (start := match biomes w !! "massive_world" with
                | Some biome => (biome, w)
                | None => (getDefaultBiome, saveBiome w getDefaultBiome)
                end).
  assert (Hstart : players (snd start) = players w
                   /\ gameStates (snd start) = gameStates w
                   /\ claimedPlots (snd start) = claimedPlots w
                   /\ forall biome, biomes w !! "massive_world" = Some biome ->
                        biomes (snd start) = biomes w /\ fst start = biome).
  { unfold start. destruct (biomes w !! "massive_world"); simpl.
    - repeat split; auto; congruence.
    - repeat split; auto; discriminate. }
  destruct start as [biome w0]. simpl in Hstart. destruct Hstart as (Hp & Hg & Hc & Hb).
  rewrite Hp, Hplayer.
  cbn [savePlayer gameStates Player.id Player.with_lastActive]. rewrite Hg.
  destruct (gameStates w !! Player.id player) as [stored|] eqn:Hgs;
    (eexists _, _, _; split; [reflexivity|]; cbn;
     split; [exact Hc|]; split; [reflexivity|]; split; [reflexivity|];
     split; [now rewrite Hp|]; split; [apply lookup_insert_eq|];
     split; [exact Hb|]; split; [intros ? [= <-]; auto | intros; try discriminate; auto]).
Qed.

Lemma init_returning_player_witness :
  exists w' gameState nearby,
    init alice_joined "alice" 5000 "land_9" = (w', RespInit gameState "alice" nearby)
    /\ claimedPlots w' = claimedPlots alice_joined
    /\ Player.landPlots (GameState.player gameState) = ["land_1"].
Proof.
  destruct (init_returning_player alice_joined "alice" 5000 "land_9"
              (GameState.player (on_file alice_joined "alice")))
    as (w' & gameState & nearby & Hinit & Hclaimed & _ & Hplots & _).
  - vm_compute. reflexivity.
  - exists w', gameState, nearby. split; [exact Hinit|]. split; [exact Hclaimed|].
    rewrite Hplots. reflexivity.
Defined.





(** X10. POST /api/water-tree succeeds exactly when the wallet holds water
    and the tree id is found. It then sets [lastWatered] to now, raises the
    stored health by 20 capped at 100, spends one water, adds 5 experience
    to the player of the game state, and saves the game state only: the
    player store and the biome store are left as they were. *)
Theorem waterTree_effect (w : World) (playerId treeId : string) (now : Z)
    (gameState : GameState.t) :
  gameStates w !! playerId = Some gameState ->
  let found := findIndexed (fun t => String.eqb (Tree.id t) treeId)
                           (GameState.trees gameState) in
  let w' := fst (waterTree w playerId treeId now) in
  (committed (snd (waterTree w playerId treeId now)) = true <->
   0 < Resources.water (GameState.resources gameState) /\ is_Some found)
  /\ forall treeIndex tree,
       found = Some (treeIndex, tree) ->
       0 < Resources.water (GameState.resources gameState) ->
       exists gameState',
         response_gameState (snd (waterTree w playerId treeId now)) = Some gameState'
         /\ GameState.trees gameState'
            = <[treeIndex :=
                  Tree.mk (Tree.id tree) (Tree.type tree) (Tree.x tree) (Tree.y tree)
                    (Tree.z tree) (Tree.growthStage tree) (Tree.plantedAt tree)
                    now (Z.min 100 (Tree.health tree + 20)) (Tree.ownerId tree)]>
              (GameState.trees gameState)
         /\ GameState.resources gameState'
            = Resources.mk (Resources.seeds (GameState.resources gameState))
                           (Resources.water (GameState.resources gameState) - 1)
                           (Resources.fertilizer (GameState.resources gameState))
                           (Resources.coins (GameState.resources gameState))
         /\ GameState.player gameState'
            = Player.with_experience (GameState.player gameState)
                (Player.experience (GameState.player gameState) + 5)
         /\ GameState.currentBiome gameState' = GameState.currentBiome gameState
         /\ gameStates w'
            = <[Player.id (GameState.player gameState) := gameState']> (gameStates w)
         /\ players w' = players w
         /\ biomes w' = biomes w.
Proof.
  intros Hgs found w'. unfold w', waterTree. rewrite Hgs. fold found.
  destruct (Z.leb_spec (Resources.water (GameState.resources gameState)) 0) as [Hdry|Hwet].
  - split; [|intros; lia]. split; [discriminate | intros [? _]; lia].
  - destruct found as [[i tree]|] eqn:Hfound.
    + split; [split; [split; [assumption | eauto] | reflexivity]|].
      intros ? ? [= <- <-] _. eexists. split; [reflexivity|]. cbn. repeat split.
    + split; [|discriminate]. split; [discriminate | intros [_ [? ?]]; discriminate].
Qed.

Lemma waterTree_effect_witness :
  committed (snd (waterTree alice_planted "alice" "tree_1" 3000)) = true.
Proof.
  destruct (waterTree_effect alice_planted "alice" "tree_1" 3000
              (on_file alice_planted "alice")) as [Hiff _].
  - vm_compute. reflexivity.
  - apply Hiff. split.
    + vm_compute. reflexivity.
    + eexists. vm_compute. reflexivity.
Defined.


(** X11. The experience earned by watering does not survive the next
    init: water-tree saves the game state but not the player record, and
    init overwrites the player of the game state with the player record.
    The water spent and the watered tree do survive. *)
Theorem water_experience_lost_at_init (w : World) (playerId treeId : string)
    (now now' : Z) (freshLandId : string) (gameState : GameState.t)
    (player : Player.t) :
  gameStates w !! playerId = Some gameState ->
  players w !! playerId = Some player ->
  Player.id player = playerId ->
  Player.id (GameState.player gameState) = playerId ->
  committed (snd (waterTree w playerId treeId now)) = true ->
  exists watered restored,
    response_gameState (snd (waterTree w playerId treeId now)) = Some watered
    /\ Player.experience (GameState.player watered)
       = Player.experience (GameState.player gameState) + 5
    /\ response_gameState
         (snd (init (fst (waterTree w playerId treeId now)) playerId now' freshLandId))
       = Some restored
    /\ Player.experience (GameState.player restored) = Player.experience player
    /\ Resources.water (GameState.resources restored)
       = Resources.water (GameState.resources gameState) - 1
    /\ GameState.trees restored = GameState.trees watered.
Proof.
  intros Hgs Hplayer Hid Hid' Hok. unfold waterTree in *. rewrite Hgs in *.
  destruct (Resources.water (GameState.resources gameState) <=? 0); [discriminate Hok|].
  destruct (findIndexed _ _) as [[i tree]|]; [|discriminate Hok].
  cbn [saveGameState stamp fst snd response_gameState GameState.player Player.id
       Player.with_experience] in *.
  match goal with
  | |- context [init ?s _ _ _] => set (w1 := s)
  end.
  assert (Hinit : exists restored,
    response_gameState (snd (init w1 playerId now' freshLandId)) = Some restored
    /\ Player.experience (GameState.player restored) = Player.experience player
    /\ exists stored, gameStates w1 !! playerId = Some stored
         /\ GameState.resources restored = GameState.resources stored
         /\ GameState.trees restored = GameState.trees stored).
  { unfold init.
    set (start := match biomes w1 !! "massive_world" with
                  | Some biome => (biome, w1)
                  | None => (getDefaultBiome, saveBiome w1 getDefaultBiome)
                  end).
    assert (Hstart : players (snd start) = players w
                     /\ gameStates (snd start) = gameStates w1).
    { unfold start. destruct (biomes w1 !! "massive_world"); simpl; auto. }
    destruct start as [biome w0]. simpl in Hstart. destruct Hstart as [Hp Hg].
    rewrite Hp, Hplayer.
    match goal with
    | |- context [gameStates ?s !! ?k] =>
        assert (Hlook : exists stored, gameStates s !! k = Some stored
                  /\ gameStates w1 !! playerId = Some stored)
    end.
    { simpl. rewrite Hg, Hid. unfold w1. simpl. rewrite Hid', lookup_insert_eq. eauto. }
    destruct Hlook as (stored & -> & Hstored).
    eexists. split; [reflexivity|]. split; [reflexivity|].
    exists stored. split; [exact Hstored|]. split; reflexivity. }
  destruct Hinit as (restored & Hr & Hexp & stored & Hstored & Hres & Htrees).
  unfold w1 in Hstored. simpl in Hstored. rewrite Hid', lookup_insert_eq in Hstored.
  injection Hstored as <-.
  eexists _, restored. split; [reflexivity|]. split; [reflexivity|].
  split; [exact Hr|]. split; [exact Hexp|]. rewrite Hres, Htrees. split; reflexivity.
Qed.

Lemma water_experience_lost_at_init_witness :
  exists watered restored,
    response_gameState (snd (waterTree alice_planted "alice" "tree_1" 3000))
    = Some watered
    /\ response_gameState
         (snd (init (fst (waterTree alice_planted "alice" "tree_1" 3000))
                    "alice" 4000 "land_9"))
       = Some restored
    /\ Player.experience (GameState.player watered) = 15
    /\ Player.experience (GameState.player restored) = 10.
Proof.
  destruct (water_experience_lost_at_init alice_planted "alice" "tree_1" 3000 4000
              "land_9" (on_file alice_planted "alice")
              (GameState.player (on_file alice_planted "alice")))
    as (watered & restored & Hwatered & Hexp & Hrestored & Hexp' & _).
  - vm_compute. reflexivity.
  - vm_compute. reflexivity.
  - vm_compute. reflexivity.
  - vm_compute. reflexivity.
  - vm_compute. reflexivity.
  - exists watered, restored. split; [exact Hwatered|]. split; [exact Hrestored|].
    rewrite Hexp, Hexp'. split; reflexivity.
Defined.


Lemma findIndexed_None {A} (f : A -> bool) (l : list A) :
  findIndexed f l = None <-> forall a, In a l -> f a = false.
Proof.
  induction l as [|b l IH]; simpl; [split; [intros _ a [] | reflexivity]|].
  destruct (f b) eqn:Hb.
  - split; [discriminate|]. intros H. rewrite (H b) in Hb by auto. discriminate.
  - destruct (findIndexed f l) as [[j c]|].
    + split; [discriminate|]. intros H. destruct IH as [_ IH].
      discriminate IH. intros a Ha. apply H. now right.
    + split; [|reflexivity]. intros _ a [<-|Ha]; [assumption|]. now apply IH.
Qed.

(** X12. POST /api/move-player never fails for a stored game state and
    accepts any coordinates: the player is put at the requested position,
    trees, wallet and plots are untouched, player record and game state are
    saved, and in the roster of the player's biome only entries with the
    player's id are replaced (ids and order of the roster are kept). *)
Theorem movePlayer_effect (w : World) (playerId : string) (x y z : Q) (now : Z)
    (gameState : GameState.t) :
  gameStates w !! playerId = Some gameState ->
  let player := GameState.player gameState in
  let roster := Biome.players (GameState.currentBiome gameState) in
  exists w' gameState',
    movePlayer w playerId x y z now
    = (w', RespMovePlayer gameState' (mkPosition x y z))
    /\ GameState.player gameState' = Player.with_position player (mkPosition x y z)
    /\ GameState.trees gameState' = GameState.trees gameState
    /\ GameState.resources gameState' = GameState.resources gameState
    /\ players w' !! Player.id player = Some (GameState.player gameState')
    /\ gameStates w' !! Player.id player = Some gameState'
    /\ Biome.landPlots (GameState.currentBiome gameState')
       = Biome.landPlots (GameState.currentBiome gameState)
    /\ map Player.id (Biome.players (GameState.currentBiome gameState'))
       = map Player.id roster
    /\ (forall i other, roster !! i = Some other -> Player.id other <> Player.id player ->
          Biome.players (GameState.currentBiome gameState') !! i = Some other)
    /\ ((exists entry, In entry roster /\ Player.id entry = Player.id player) ->
        In (GameState.player gameState')
           (Biome.players (GameState.currentBiome gameState'))).
Proof.
  intros Hgs player roster. unfold movePlayer. rewrite Hgs. fold player.
  cbn [Player.id Player.with_position]. fold roster.
  destruct (findIndexed _ roster) as [[i entry]|] eqn:Hfind.
  - apply findIndexed_Some in Hfind as [Hi Hentry]. apply String.eqb_eq in Hentry.
    eexists _, _. split; [reflexivity|]. cbn.
    split; [reflexivity|]. split; [reflexivity|]. split; [reflexivity|].
    split; [apply lookup_insert_eq|]. split; [apply lookup_insert_eq|].
    split; [reflexivity|]. split.
    { rewrite list_fmap_insert. apply list_insert_id.
      rewrite list_lookup_fmap, Hi. simpl. now rewrite Hentry. }
    split.
    { intros j other Hj Hne. rewrite list_lookup_insert_ne; [assumption|].
      intros ->. rewrite Hi in Hj. injection Hj as <-. contradiction. }
    intros _. apply list_elem_of_In, list_elem_of_lookup. exists i.
    apply list_lookup_insert_eq. now apply lookup_lt_Some in Hi.
  - rewrite findIndexed_None in Hfind.
    eexists _, _. split; [reflexivity|]. cbn.
    split; [reflexivity|]. split; [reflexivity|]. split; [reflexivity|].
    split; [apply lookup_insert_eq|]. split; [apply lookup_insert_eq|].
    split; [reflexivity|]. split; [reflexivity|]. split; [auto|].
    intros (entry & Hin & Hid). apply Hfind in Hin.
    apply String.eqb_neq in Hin. contradiction.
Qed.

Lemma movePlayer_effect_witness :
  exists w' gameState',
    movePlayer alice_joined "alice" 1 0 2 2000
    = (w', RespMovePlayer gameState' (mkPosition 1 0 2))
    /\ GameState.trees gameState' = [].
Proof.
  destruct (movePlayer_effect alice_joined "alice" 1 0 2 2000
              (on_file alice_joined "alice"))
    as (w' & gameState' & Hmove & _ & Htrees & _).
  - vm_compute. reflexivity.
  - exists w', gameState'. split; [exact Hmove|]. rewrite Htrees. reflexivity.
Defined.


(** X13. plant-tree, buy-land and move-player save the biome copy held in
    the acting player's game state over the shared biome record: after a
    successful request the shared record is that copy, whose plots are the
    plots of the copy the handler loaded (plus the plot just bought) and
    whose roster has the ids of the loaded copy, whatever the shared record
    held before. *)
Theorem shared_biome_overwritten (w : World) (a : Action) (now : Z)
    (gameState gameState' : GameState.t) :
  writes_biome a = true ->
  loaded w a = Some gameState ->
  committed (snd (step w a now)) = true ->
  response_gameState (snd (step w a now)) = Some gameState' ->
  biomes (fst (step w a now)) !! Biome.id (GameState.currentBiome gameState)
  = Some (GameState.currentBiome gameState')
  /\ map LandPlot.id (Biome.landPlots (GameState.currentBiome gameState'))
     = map LandPlot.id (Biome.landPlots (GameState.currentBiome gameState)) ++ bought a
  /\ map Player.id (Biome.players (GameState.currentBiome gameState'))
     = map Player.id (Biome.players (GameState.currentBiome gameState)).
Proof.
  destruct a; try discriminate; cbn [step loaded bought]; intros _ Hgs.
  - unfold plantTree. rewrite Hgs.
    destruct (findIndexed _ _) as [[i plot]|] eqn:Hfind; [|discriminate].
    apply findIndexed_Some in Hfind as [Hi _].
    break_handler; try discriminate. intros _ [= <-]. cbn.
    split; [apply lookup_insert_eq|]. split; [|reflexivity].
    rewrite app_nil_r, list_fmap_insert. apply list_insert_id.
    now rewrite list_lookup_fmap, Hi.
  - unfold buyLand. rewrite Hgs.
    break_handler; try discriminate. intros _ [= <-]. cbn.
    split; [apply lookup_insert_eq|]. split; [|reflexivity].
    now rewrite map_app.
  - unfold movePlayer. rewrite Hgs. cbn [Player.id Player.with_position].
    destruct (findIndexed _ _) as [[i entry]|] eqn:Hfind; cbn; intros _ [= <-]; cbn;
      (split; [apply lookup_insert_eq|]); rewrite app_nil_r; (split; [reflexivity|]);
      [|reflexivity].
    apply findIndexed_Some in Hfind as [Hi Hentry]. apply String.eqb_eq in Hentry.
    rewrite list_fmap_insert. apply list_insert_id.
    rewrite list_lookup_fmap, Hi. simpl. now rewrite Hentry.
Qed.

Lemma shared_biome_overwritten_witness :
  map LandPlot.id (Biome.landPlots (shared_biome two_joined)) = ["land_1"; "land_2"]
  /\ map LandPlot.id
       (Biome.landPlots
          (shared_biome (fst (step two_joined (MovePlayer "alice" 1 0 2) 3000))))
     = ["land_1"].
Proof.
  split; [vm_compute; reflexivity|].
  eassert (Hresponse : response_gameState
                         (snd (step two_joined (MovePlayer "alice" 1 0 2) 3000))
                       = Some _) by (vm_compute; reflexivity).
  destruct (shared_biome_overwritten two_joined (MovePlayer "alice" 1 0 2) 3000
              (on_file two_joined "alice") _
              ltac:(reflexivity) ltac:(vm_compute; reflexivity)
              ltac:(vm_compute; reflexivity) Hresponse)
    as (Hstored & Hplots & _).
  unfold shared_biome.
  change "massive_world"
    with (Biome.id (GameState.currentBiome (on_file two_joined "alice"))).
  rewrite Hstored. etransitivity; [exact Hplots|]. vm_compute. reflexivity.
Defined.



Lemma in_ids_unlock_if (key : string) (cond : bool) (a : Achievement.t) (now : Z) :
  In key (map Achievement.id (unlock_if cond a now)) <->
  cond = true /\ Achievement.id a = key.
Proof. unfold unlock_if. destruct cond; simpl; intuition (try discriminate). Qed.











End HandlerFacts.

(** ** What every reachable store satisfies *)

Module UpkeepFacts.
Import Plots Proximity Achievements Coordinator Endpoints Upkeep PlotFacts AchievementFacts CoordinatorFacts HandlerFacts.



Lemma checkAchievements_ids_distinct player action count now :
  NoDup (map Achievement.id (checkAchievements player action count now)).
Proof.
  unfold checkAchievements, unlock_if.
  repeat match goal with
         | |- context [if ?c then _ else _] => destruct c
         end;
    cbn; apply (bool_decide_unpack _); vm_compute; exact I.
Qed.

Lemma checkAchievements_keeps_distinct player action count now :
  ids_distinct player ->
  NoDup (map Achievement.id
           (Player.achievements player ++ checkAchievements player action count now)).
Proof.
  intros Hp. rewrite map_app. apply NoDup_app. split; [exact Hp|]. split.
  - intros key Hheld Hnew. apply list_elem_of_In in Hheld, Hnew.
    apply in_map_iff in Hnew as (a & <- & Ha).
    apply checkAchievements_fresh in Ha. apply holds_In in Hheld. congruence.
  - apply checkAchievements_ids_distinct.
Qed.

Lemma well_kept_empty : well_kept emptyWorld.
Proof.
  split; [|split]; intros ? ? H; simpl in H; rewrite lookup_empty in H; discriminate.
Qed.

(** Lookups in a freshly written map: the written value or an old one. *)
Ltac old_or_new Hw :=
  let H := fresh "Hlook" in
  intros ? ? H; simpl in H;
  try (apply lookup_insert_Some in H; destruct H as [[_ H]|[_ H]]; [subst|]);
  try solve [ eapply (proj1 Hw); eassumption
            | eapply (proj1 (proj2 Hw)); eassumption
            | eapply (proj2 (proj2 Hw)); eassumption ].

Lemma within_capacity_add biome plot :
  within_capacity biome -> LandPlot.trees plot = [] ->
  within_capacity (Biome.with_landPlots biome (Biome.landPlots biome ++ [plot])).
Proof.
  unfold within_capacity. simpl. intros Hb Hnew. rewrite Forall_app. split; [exact Hb|].
  constructor; [|constructor]. rewrite Hnew. simpl. unfold MAX_TREES_PER_PLOT. lia.
Qed.

Lemma init_well_kept w username now freshLandId :
  well_kept w -> well_kept (fst (init w username now freshLandId)).
Proof.
  intros Hw. unfold init.
  set (start := match biomes w !! "massive_world" with
                | Some biome => (biome, w)
                | None => (getDefaultBiome, saveBiome w getDefaultBiome)
                end).
  assert (Hstart : well_kept (snd start) /\ within_capacity (fst start)).
  { unfold start. destruct (biomes w !! "massive_world") as [biome|] eqn:Hb; simpl.
    - split; [assumption|]. eapply (proj1 (proj2 Hw)); eassumption.
    - assert (Hd : within_capacity getDefaultBiome) by constructor.
      split; [|exact Hd]. split; [|split]; old_or_new Hw. exact Hd. }
  destruct start as [biome w0]. simpl in Hstart. destruct Hstart as [Hw0 Hbiome].
  destruct (players w0 !! username) as [player|] eqn:Hplayer.
  - assert (Hp : ids_distinct (Player.with_lastActive player now))
      by (apply (proj1 Hw0 _ _ Hplayer)).
    destruct (gameStates (savePlayer w0 (Player.with_lastActive player now))
                !! Player.id (Player.with_lastActive player now)) as [stored|] eqn:Hgs.
    + simpl in Hgs. destruct (proj2 (proj2 Hw0) _ _ Hgs) as (_ & _ & Htrees).
      split; [|split]; old_or_new Hw0; auto.
    + split; [|split]; old_or_new Hw0; auto; repeat split; auto; constructor.
  - destruct (allocateStartingLand _ _ _ _ _) as [err|[[claimed' player'] biome']] eqn:Halloc;
      [exact Hw0|].
    assert (Hnew : ids_distinct player' /\ within_capacity biome').
    { unfold allocateStartingLand in Halloc. break_handler.
      split; [constructor | now apply within_capacity_add]. }
    destruct Hnew as [Hp Hb].
    assert (Hb' : within_capacity
                    (Biome.with_players biome' (Biome.players biome' ++ [player']))) by exact Hb.
    match goal with
    | |- context [gameStates ?s !! ?k] => destruct (gameStates s !! k) as [stored|] eqn:Hgs
    end.
    + simpl in Hgs. destruct (proj2 (proj2 Hw0) _ _ Hgs) as (_ & _ & Htrees).
      split; [|split]; old_or_new Hw0; auto.
    + split; [|split]; old_or_new Hw0; auto; repeat split; auto; constructor.
Qed.

Lemma step_well_kept w a now : well_kept w -> well_kept (fst (step w a now)).
Proof.
  intros Hw. destruct a; cbn [step].
  - now apply init_well_kept.
  - unfold plantTree. destruct (gameStates w !! playerId) as [gs|] eqn:Hgs; [|assumption].
    destruct (proj2 (proj2 Hw) _ _ Hgs) as (Hids & Hcap & Htrees).
    destruct (findIndexed _ _) as [[i plot]|] eqn:Hfind; [|assumption].
    apply findIndexed_Some in Hfind as [Hi _].
    destruct (Z.leb_spec MAX_TREES_PER_PLOT (Z.of_nat (length (LandPlot.trees plot))));
      [assumption|].
    destruct (Resources.seeds (GameState.resources gs) <=? 0); [assumption|].
    assert (Hcap' : within_capacity
              (Biome.with_landPlots (GameState.currentBiome gs)
                 (<[i := LandPlot.with_trees plot (LandPlot.trees plot ++ [freshTreeId])]>
                    (Biome.landPlots (GameState.currentBiome gs))))).
    { apply Forall_insert; [exact Hcap|]. simpl. rewrite length_app. simpl. lia. }
    pose proof (checkAchievements_keeps_distinct
                  (Player.with_experience (GameState.player gs)
                     (Player.experience (GameState.player gs) + 10))
                  "plant_tree"
                  (Some (Z.of_nat (length (GameState.trees gs ++
                     [Tree.mk freshTreeId treeType x 0%Q z 0 now now 100
                        (Player.id (GameState.player gs))])))) now Hids) as Hids'.
    split; [|split]; old_or_new Hw; auto.
    repeat split; auto. simpl. rewrite Forall_app. split; [exact Htrees|].
    repeat constructor.
  - unfold buyLand. destruct (gameStates w !! playerId) as [gs|] eqn:Hgs; [|assumption].
    destruct (proj2 (proj2 Hw) _ _ Hgs) as (Hids & Hcap & Htrees).
    destruct (find _ _); [assumption|].
    destruct (Player.coins (GameState.player gs) <? LAND_PLOT_COST); [assumption|].
    set (player := Player.with_coins
                     (Player.with_landPlots (GameState.player gs)
                        (Player.landPlots (GameState.player gs) ++ [freshLandId]))
                     (Player.coins (GameState.player gs) - LAND_PLOT_COST)).
    pose proof (checkAchievements_keeps_distinct player "buy_land"
                  (Some (Z.of_nat (length (Player.landPlots player)))) now Hids) as Hids'.
    pose proof (within_capacity_add (GameState.currentBiome gs)
                  (LandPlot.mk freshLandId x z (Player.id (GameState.player gs))
                     (Biome.type (GameState.currentBiome gs)) [] now LAND_PLOT_COST)
                  Hcap eq_refl) as Hcap'.
    split; [|split]; old_or_new Hw; auto; repeat split; auto.
  - unfold movePlayer. destruct (gameStates w !! playerId) as [gs|] eqn:Hgs; [|assumption].
    destruct (proj2 (proj2 Hw) _ _ Hgs) as (Hids & Hcap & Htrees).
    destruct (findIndexed _ _) as [[i entry]|];
      (split; [|split]; old_or_new Hw; auto; repeat split; auto).
  - unfold waterTree. destruct (gameStates w !! playerId) as [gs|] eqn:Hgs; [|assumption].
    destruct (proj2 (proj2 Hw) _ _ Hgs) as (Hids & Hcap & Htrees).
    destruct (Resources.water (GameState.resources gs) <=? 0); [assumption|].
    destruct (findIndexed _ _) as [[i tree]|] eqn:Hfind; [|assumption].
    apply findIndexed_Some in Hfind as [Hi _].
    destruct (Forall_lookup_1 _ _ _ _ Htrees Hi) as [Hstage Hhealth].
    split; [|split]; old_or_new Hw; auto. repeat split; auto. simpl.
    apply Forall_insert; [exact Htrees|]. split; simpl; [exact Hstage|].
    rewrite Hhealth. reflexivity.
  - unfold harvestTree. destruct (gameStates w !! playerId) as [gs|] eqn:Hgs; [|assumption].
    destruct (proj2 (proj2 Hw) _ _ Hgs) as (Hids & Hcap & Htrees).
    destruct (findIndexed _ _) as [[i tree]|] eqn:Hfind; [|assumption].
    apply findIndexed_Some in Hfind as [Hi _].
    destruct (Forall_lookup_1 _ _ _ _ Htrees Hi) as [Hstage Hhealth].
    rewrite Hstage. exact Hw.
  - unfold buySeeds. destruct (gameStates w !! playerId) as [gs|] eqn:Hgs; [|assumption].
    destruct (proj2 (proj2 Hw) _ _ Hgs) as (Hids & Hcap & Htrees).
    destruct (_ <? _); [assumption|].
    split; [|split]; old_or_new Hw; auto; repeat split; auto.
Qed.

Lemma reachable_well_kept w : reachable w -> well_kept w.
Proof. induction 1; [apply well_kept_empty | now apply step_well_kept]. Qed.

(** X17. In every store reached from the empty one, every tree of every
    game state still has the stage 0 and the health 100 it was planted
    with: no handler recomputes either field ([calculateTreeGrowth] and
    [calculateTreeHealth] are never called), and watering caps at 100. *)
Theorem stored_trees_stay_as_planted (w : World) (key : string)
    (gameState : GameState.t) (tree : Tree.t) :
  reachable w ->
  gameStates w !! key = Some gameState ->
  In tree (GameState.trees gameState) ->
  Tree.growthStage tree = 0 /\ Tree.health tree = 100.
Proof.
  intros Hw Hgs Hin. apply reachable_well_kept in Hw.
  destruct (proj2 (proj2 Hw) _ _ Hgs) as (_ & _ & Htrees).
  rewrite Forall_forall in Htrees. apply Htrees, list_elem_of_In, Hin.
Qed.

Lemma stored_trees_stay_as_planted_witness :
  Tree.id (oldest_tree (on_file alice_planted "alice")) = "tree_1"
  /\ Tree.growthStage (oldest_tree (on_file alice_planted "alice")) = 0
  /\ Tree.health (oldest_tree (on_file alice_planted "alice")) = 100.
Proof.
  split; [vm_compute; reflexivity|].
  apply (stored_trees_stay_as_planted alice_planted "alice"
           (on_file alice_planted "alice")).
  - apply (reachable_step _ (PlantTree "alice" oak (-995) (-1990) "tree_1") 1000).
    apply (reachable_step _ (Init "alice" "land_1") 1000). apply reachable_empty.
  - vm_compute. reflexivity.
  - left. vm_compute. reflexivity.
Defined.


(** X18. In every store reached from the empty one, no plot of the shared
    biome or of any game state's biome copy lists more than
    [MAX_TREES_PER_PLOT] trees. *)
Theorem plots_never_exceed_capacity (w : World) (key : string) (biome : Biome.t)
    (plot : LandPlot.t) :
  reachable w ->
  biomes w !! key = Some biome
  \/ (exists gameState, gameStates w !! key = Some gameState
        /\ GameState.currentBiome gameState = biome) ->
  In plot (Biome.landPlots biome) ->
  Z.of_nat (length (LandPlot.trees plot)) <= MAX_TREES_PER_PLOT.
Proof.
  intros Hw Hb Hin. apply reachable_well_kept in Hw.
  assert (Hcap : within_capacity biome).
  { destruct Hb as [Hb|(gs & Hgs & <-)].
    - eapply (proj1 (proj2 Hw)); eassumption.
    - apply (proj2 (proj2 Hw) _ _ Hgs). }
  unfold within_capacity in Hcap. rewrite Forall_forall in Hcap.
  apply Hcap, list_elem_of_In, Hin.
Qed.

Lemma plots_never_exceed_capacity_witness :
  LandPlot.trees (first_plot (shared_biome alice_planted)) = ["tree_1"]
  /\ Z.of_nat (length (LandPlot.trees (first_plot (shared_biome alice_planted))))
     <= MAX_TREES_PER_PLOT.
Proof.
  split; [vm_compute; reflexivity|].
  apply (plots_never_exceed_capacity alice_planted "massive_world"
           (shared_biome alice_planted)).
  - apply (reachable_step _ (PlantTree "alice" oak (-995) (-1990) "tree_1") 1000).
    apply (reachable_step _ (Init "alice" "land_1") 1000). apply reachable_empty.
  - left. vm_compute. reflexivity.
  - left. vm_compute. reflexivity.
Defined.


(** X19. In every store reached from the empty one, no player (stored
    record or player of a game state) holds the same achievement id
    twice. *)
Theorem achievements_unique_by_id (w : World) (key : string) (player : Player.t) :
  reachable w ->
  players w !! key = Some player
  \/ (exists gameState, gameStates w !! key = Some gameState
        /\ GameState.player gameState = player) ->
  NoDup (map Achievement.id (Player.achievements player)).
Proof.
  intros Hw Hp. apply reachable_well_kept in Hw.
  destruct Hp as [Hp|(gs & Hgs & <-)].
  - eapply (proj1 Hw); eassumption.
  - apply (proj2 (proj2 Hw) _ _ Hgs).
Qed.

Lemma achievements_unique_by_id_witness :
  map Achievement.id
    (Player.achievements (GameState.player (on_file alice_planted "alice")))
  = ["first_tree"]
  /\ NoDup (map Achievement.id
              (Player.achievements (GameState.player (on_file alice_planted "alice")))).
Proof.
  split; [vm_compute; reflexivity|].
  apply (achievements_unique_by_id alice_planted "alice").
  - apply (reachable_step _ (PlantTree "alice" oak (-995) (-1990) "tree_1") 1000).
    apply (reachable_step _ (Init "alice" "land_1") 1000). apply reachable_empty.
  - left. vm_compute. reflexivity.
Defined.


End UpkeepFacts.

(** ** Health and growth over time *)

Module HealthFacts.
Import Growth Health GrowthFacts.




End HealthFacts.

(** ** Chat, achievements and neighbours *)

Module EndpointFacts.
Import Chat Achievements Proximity Coordinator Endpoints Upkeep ChatFacts AchievementFacts CoordinatorFacts HandlerFacts UpkeepFacts.

(** *** Chat *)

Lemma last_n_all {A} (n : nat) (l : list A) : (length l <= n)%nat -> last_n n l = l.
Proof. intros H. unfold last_n. replace (length l - n)%nat with 0%nat by lia. reflexivity. Qed.

Lemma last_n_app {A} (n : nat) (a b : list A) :
  last_n n (last_n n a ++ b) = last_n n (a ++ b).
Proof.
  unfold last_n. rewrite !length_app, length_drop.
  destruct (Nat.le_gt_cases (length a) n) as [Hshort|Hlong].
  - replace (length a - n)%nat with 0%nat by lia. simpl.
    f_equal. lia.
  - rewrite <- (drop_app_le a b (length a - n)) by lia.
    rewrite drop_drop. f_equal. lia.
Qed.

Lemma last_last_n {A} (n : nat) (l : list A) :
  (0 < n)%nat -> last (last_n n l) = last l.
Proof.
  intros Hn. unfold last_n.
  destruct (Nat.le_gt_cases (length l) n) as [Hshort|Hlong].
  - replace (length l - n)%nat with 0%nat by lia. reflexivity.
  - rewrite !last_lookup, length_drop, lookup_drop. f_equal. lia.
Qed.

Lemma addAll_cons buffer m messages :
  addAll buffer (m :: messages)
  = addAll (fst (addChatMessage buffer (ChatMessage.id m) (ChatMessage.playerId m)
                   (ChatMessage.username m) (ChatMessage.message m)
                   (ChatMessage.timestamp m) (ChatMessage.type m))) messages.
Proof. reflexivity. Qed.

(** X22. Appending any sequence of messages one by one to a buffer of at
    most 100 entries leaves exactly the last 100 of buffer followed by the
    sequence, in order; the buffer never holds more than 100. *)
Theorem chat_keeps_last_hundred (buffer messages : list ChatMessage.t) :
  (length buffer <= 100)%nat ->
  addAll buffer messages = last_n 100 (buffer ++ messages)
  /\ (length (addAll buffer messages) <= 100)%nat.
Proof.
  intros Hlen.
  assert (H : addAll buffer messages = last_n 100 (buffer ++ messages)).
  { revert buffer Hlen. induction messages as [|m messages IH]; intros buffer Hlen.
    - simpl. rewrite app_nil_r. symmetry. now apply last_n_all.
    - rewrite addAll_cons, addChatMessage_buffer. destruct m as [i p u t ts k].
      cbn [ChatMessage.id ChatMessage.playerId ChatMessage.username
           ChatMessage.message ChatMessage.timestamp ChatMessage.type].
      rewrite IH by (rewrite last_n_length; lia).
      rewrite last_n_app, <- app_assoc. reflexivity. }
  split; [exact H|]. rewrite H, last_n_length. lia.
Qed.

Lemma chat_keeps_last_hundred_witness :
  addAll [note 1] [note 2; note 3] = [note 1; note 2; note 3].
Proof.
  apply (proj1 (chat_keeps_last_hundred [note 1] [note 2; note 3]
                  ltac:(simpl; lia))).
Defined.



(** X24. GET /api/chat-messages: a missing, unparsable or zero limit gives
    the last 20 messages, a positive limit the last [limit]; a negative
    limit -n is passed on to [slice] and gives everything but the first n
    messages. *)
Theorem chatMessagesEndpoint_limits (w : World) (parsedLimit : option Z) :
  let buffer := chatMessages w in
  match parsedLimit with
  | None | Some 0 => chatMessagesEndpoint w parsedLimit = last_n 20 buffer
  | Some limit =>
      (0 < limit -> chatMessagesEndpoint w parsedLimit = last_n (Z.to_nat limit) buffer)
      /\ (limit < 0 -> chatMessagesEndpoint w parsedLimit = drop (Z.to_nat (- limit)) buffer)
  end.
Proof.
  intros buffer. unfold chatMessagesEndpoint. fold buffer.
  destruct parsedLimit as [[|p|p]|]; simpl.
  - apply (slice_from_negative 20). lia.
  - split; [|intros; lia]. intros _. apply (slice_from_negative (Z.pos p)). lia.
  - split; [intros; lia|]. intros _. unfold getRecentChatMessages, slice_from.
    change (- Z.neg p) with (Z.pos p). cbn [Z.opp Z.ltb Z.compare].
    destruct (Z.le_gt_cases (Z.pos p) (Z.of_nat (length buffer))).
    + rewrite Z.min_l by lia. reflexivity.
    + rewrite Z.min_r by lia. rewrite !drop_ge by lia. reflexivity.
  - apply (slice_from_negative 20). lia.
Qed.

Lemma sendChatMessage_sent w playerId message now freshId sent :
  snd (sendChatMessage w playerId message now freshId) = inr sent ->
  chatMessages (fst (sendChatMessage w playerId message now freshId))
  = last_n 100 (chatMessages w ++ [sent]).
Proof.
  unfold sendChatMessage.
  destruct (_ || _); [discriminate|]. destruct (_ <? _); [discriminate|].
  destruct (players w !! playerId) as [player|]; [|discriminate].
  pose proof (addChatMessage_buffer (chatMessages w) freshId playerId
                (Player.username player) message now chat_player) as Hbuf.
  destruct (addChatMessage _ _ _ _ _ _ _) as [buffer made] eqn:Hadd.
  simpl. intros [= <-]. simpl in Hbuf. rewrite Hbuf.
  unfold addChatMessage in Hadd. injection Hadd as _ <-. reflexivity.
Qed.

(** X25. A message that was accepted is the last message returned by
    GET /api/chat-messages right after, for every non-negative (or missing)
    limit. *)
Theorem sent_message_is_read_back (w : World) (playerId message : string) (now : Z)
    (freshId : string) (sent : ChatMessage.t) (parsedLimit : option Z) :
  snd (sendChatMessage w playerId message now freshId) = inr sent ->
  (forall limit, parsedLimit = Some limit -> 0 <= limit) ->
  last (chatMessagesEndpoint (fst (sendChatMessage w playerId message now freshId))
          parsedLimit)
  = Some sent.
Proof.
  intros Hsent Hlimit. unfold chatMessagesEndpoint.
  rewrite (sendChatMessage_sent _ _ _ _ _ _ Hsent).
  set (limit := match parsedLimit with
                | Some n => if n =? 0 then 20 else n
                | None => 20
                end).
  assert (Hpos : 0 < limit).
  { unfold limit. destruct parsedLimit as [n|]; [|lia].
    specialize (Hlimit n eq_refl). destruct (Z.eqb_spec n 0); lia. }
  unfold getRecentChatMessages. rewrite slice_from_negative by exact Hpos.
  rewrite !last_last_n by lia. apply last_snoc.
Qed.

Lemma sent_message_is_read_back_witness :
  last (chatMessagesEndpoint
          (fst (sendChatMessage alice_joined "alice" "hi" 2000 "chat_1")) None)
  = Some (ChatMessage.mk "chat_1" "alice" "alice" "hi" 2000 chat_player).
Proof.
  apply (sent_message_is_read_back alice_joined "alice" "hi" 2000 "chat_1").
  - vm_compute. reflexivity.
  - intros limit Hlimit. discriminate Hlimit.
Defined.


(** *** Achievements *)

(** X26. Whatever the player and the action, [checkAchievements] returns
    achievements with pairwise different ids, each stamped now and
    otherwise equal to one of six entries of the table; explorer and
    social_butterfly are never unlocked; appending the result keeps a
    player's ids unique. *)
Theorem checkAchievements_table (player : Player.t) (action : string)
    (count : option Z) (now : Z) :
  let unlocked := checkAchievements player action count now in
  NoDup (map Achievement.id unlocked)
  /\ (forall a, In a unlocked ->
        Achievement.unlockedAt a = now
        /\ In (Achievement.with_unlockedAt a 0)
              [first_tree; tree_master; harvester; landowner; millionaire;
               master_gardener])
  /\ ~ In "explorer" (map Achievement.id unlocked)
  /\ ~ In "social_butterfly" (map Achievement.id unlocked)
  /\ (NoDup (map Achievement.id (Player.achievements player)) ->
      NoDup (map Achievement.id (Player.achievements player ++ unlocked))).
Proof.
  intros unlocked.
  split; [apply checkAchievements_ids_distinct|].
  split.
  { intros a Ha. unfold unlocked, checkAchievements in Ha.
    rewrite !in_app_iff in Ha.
    repeat (destruct Ha as [Ha|Ha]); apply in_unlock_if in Ha as [_ ->];
      (split; [reflexivity|]); simpl; tauto. }
  split; [|split].
  - unfold unlocked, checkAchievements.
    rewrite !map_app, !in_app_iff, !in_ids_unlock_if.
    intros H. repeat (destruct H as [H|H]); destruct H as [_ H]; discriminate H.
  - unfold unlocked, checkAchievements.
    rewrite !map_app, !in_app_iff, !in_ids_unlock_if.
    intros H. repeat (destruct H as [H|H]); destruct H as [_ H]; discriminate H.
  - apply checkAchievements_keeps_distinct.
Qed.

(** *** Neighbours are read from the requester's own copy *)

(** X27. What another player does never shows in my neighbours: a request
    other than init acting on somebody else's game state changes neither my
    stored game state nor the answer of GET /api/nearby-players for me,
    which is computed from the roster copy inside my own game state. *)
Theorem others_actions_leave_neighbours (w : World) (a : Action) (now : Z)
    (gameState : GameState.t) (me : string) :
  is_init a = false ->
  loaded w a = Some gameState ->
  Player.id (GameState.player gameState) <> me ->
  gameStates (fst (step w a now)) !! me = gameStates w !! me
  /\ nearbyPlayers (fst (step w a now)) me = nearbyPlayers w me.
Proof.
  intros Hkind Hgs Hother.
  assert (H : gameStates (fst (step w a now)) !! me = gameStates w !! me).
  { destruct a; [discriminate|..]; cbn [step loaded] in *;
      [ unfold plantTree | unfold buyLand | unfold movePlayer
      | unfold waterTree | unfold harvestTree | unfold buySeeds ];
      rewrite Hgs; break_handler; try reflexivity;
      apply lookup_insert_ne; assumption. }
  split; [exact H|]. unfold nearbyPlayers. now rewrite H.
Qed.

Lemma others_actions_leave_neighbours_witness :
  nearbyPlayers (fst (step two_joined (MovePlayer "bob" (-995) 0 (-1990)) 3000)) "alice"
  = nearbyPlayers two_joined "alice"
  /\ nearbyPlayers two_joined "alice" = inr [].
Proof.
  split; [|vm_compute; reflexivity].
  apply (others_actions_leave_neighbours two_joined
           (MovePlayer "bob" (-995) 0 (-1990)) 3000 (on_file two_joined "bob") "alice").
  - reflexivity.
  - vm_compute. reflexivity.
  - vm_compute. discriminate.
Defined.


End EndpointFacts.

(** ** Starting land of the earlier revision *)

Module LegacyFacts.
Import Legacy Upkeep.







End LegacyFacts.
